(** * Shell integration installer (scripts/setup.py)

    A shallow embedding of [get_shell_config], [get_shell_script] and
    [main], with the pieces of the Python runtime they use (text
    strings, [os.path], the regular-expression substitution of [main],
    files), followed by the properties of the installer.

    Modelling conventions.
    - A Python [str] is a list of code points ([N]).  The file system is
      a finite map from path names to the decoded text of each file.
      Reading in text mode turns every CR LF and every lone CR into LF
      ([universal_newlines]); writing on a POSIX system stores the text
      as it is.  Encodings, directories and links are below this level.
    - [lower] acts on A-Z only.  The program compares lowered text with
      the ASCII words zsh, bash and y, and no code point outside ASCII
      has one of their letters in its lowercase form, so the three tests
      are unaffected.
    - Each file-system call may raise an OS error, as decided by the
      [faults] oracle of the world; an exception propagates unless the
      source catches it.  A write that fails may have stored the
      beginning of its text; [short_write] says how much. *)

From Stdlib Require Import String Ascii.
From stdpp Require Import base option list gmap.

Set Default Proof Using "Type".
Local Open Scope N_scope.
Local Open Scope nat_scope.

(** ** Python text *)

Module Py.

Abbreviation char := N (only parsing).
Abbreviation str := (list N) (only parsing).

(** A literal of the source, given as the code points of its characters. *)
Definition lit (s : string) : str :=
  map N_of_ascii (list_ascii_of_string s).

#[global] Arguments lit : simpl never.

Definition nl : str := [10%N].
Definition dq : str := [34%N].

(** [a == b] on text. *)
Fixpoint eqb (a b : str) : bool :=
  match a, b with
  | [], [] => true
  | x :: a', y :: b' => N.eqb x y && eqb a' b'
  | _, _ => false
  end.

(** [s.startswith(pat)] *)
Fixpoint startswith (pat s : str) : bool :=
  match pat, s with
  | [], _ => true
  | _ :: _, [] => false
  | x :: pat', y :: s' => N.eqb x y && startswith pat' s'
  end.

(** [s.find(pat)], with [None] for -1. *)
Fixpoint find (pat s : str) : option nat :=
  if startswith pat s then Some 0
  else match s with
       | [] => None
       | _ :: s' => S <$> find pat s'
       end.

(** [pat in s] *)
Definition contains (pat s : str) : bool :=
  match find pat s with Some _ => true | None => false end.

(** [s.endswith(pat)] *)
Definition endswith (pat s : str) : bool :=
  startswith (rev pat) (rev s).

Definition lower_char (c : N) : N :=
  if (N.leb 65 c && N.leb c 90)%bool then (c + 32)%N else c.

(** [s.lower()] *)
Definition lower (s : str) : str := map lower_char s.

(** [c.isspace()]: the code points CPython classifies as whitespace. *)
Definition isspace (c : N) : bool :=
  (N.leb 9 c && N.leb c 13) || (N.leb 28 c && N.leb c 32)
  || N.eqb c 133 || N.eqb c 160 || N.eqb c 5760
  || (N.leb 8192 c && N.leb c 8202)
  || N.eqb c 8232 || N.eqb c 8233 || N.eqb c 8239 || N.eqb c 8287
  || N.eqb c 12288.

(** [s.rstrip()] *)
Fixpoint rstrip (s : str) : str :=
  match s with
  | [] => []
  | c :: s' =>
      match rstrip s' with
      | [] => if isspace c then [] else [c]
      | r => c :: r
      end
  end.

(** [s.rstrip(c)] for a single character [c]. *)
Fixpoint rstrip_char (c : N) (s : str) : str :=
  match s with
  | [] => []
  | x :: s' =>
      match rstrip_char c s' with
      | [] => if N.eqb x c then [] else [x]
      | r => x :: r
      end
  end.

(** The text that reading in text mode returns for the stored text [s]:
    CR LF and lone CR become LF. *)
Fixpoint universal_newlines (s : str) : str :=
  match s with
  | [] => []
  | c :: s' =>
      if N.eqb c 13 then
        10%N :: match s' with
                | x :: s'' =>
                    if N.eqb x 10 then universal_newlines s''
                    else universal_newlines s'
                | [] => []
                end
      else c :: universal_newlines s'
  end.

(** A value that is a text or [None]. *)
Abbreviation value := (option (list N)) (only parsing).

(** Truth value of [v] in a condition: [None] and the empty text are
    false. *)
Definition truthy (v : value) : bool :=
  match v with
  | Some (_ :: _) => true
  | _ => false
  end.

(** What an f-string puts for [{v}]. *)
Definition format (v : value) : str :=
  match v with
  | Some s => s
  | None => lit "None"
  end.

(** [v == s] for a text [s]. *)
Definition value_eqb (v : value) (s : str) : bool :=
  match v with
  | Some t => eqb t s
  | None => false
  end.

End Py.

(** ** [os.path] (posixpath) *)

Module OsPath.

Definition sep : list N := Py.lit "/".

(** [os.path.join(a, b)] *)
Definition join (a b : list N) : list N :=
  if Py.startswith sep b then b
  else match a with
       | [] => b
       | _ => if Py.endswith sep a then a ++ b else a ++ sep ++ b
       end.

(** [os.path.expanduser(path)] for a path that is [~] or starts with
    [~/], given the user's home directory. *)
Definition expanduser (home path : list N) : list N :=
  match Py.rstrip_char 47%N home ++ drop 1 path with
  | [] => sep
  | p => p
  end.

End OsPath.

(** ** [re]: the part of the regular-expression engine that [main] uses *)

Module Re.

(** A compiled pattern: literal characters and the lazy wildcard [.*?]. *)
Inductive atom : Type :=
  | Chr (c : N)
  | LazyAny.

Definition specials : list N := Py.lit ".^$*+?{}[]\|()".

Definition is_special (c : N) : bool :=
  existsb (N.eqb c) specials.

(** [re.compile(p)] for patterns built of ordinary characters and [.*?];
    any other use of a special character is outside the fragment. *)
Fixpoint compile (p : list N) : option (list atom) :=
  match p with
  | [] => Some []
  | c :: p' =>
      if N.eqb c 46 then
        match p' with
        | 42%N :: 63%N :: p'' => cons LazyAny <$> compile p''
        | _ => None
        end
      else if is_special c then None
      else cons (Chr c) <$> compile p'
  end.

(** What [.] matches: anything under [re.DOTALL], anything but a newline
    otherwise. *)
Definition dot_matches (dotall : bool) (c : N) : bool :=
  dotall || negb (N.eqb c 10).

(** Backtracking match of [r] at the head of [s]: the length of the match
    the engine finds first, if there is one.  The lazy wildcard tries the
    rest of the pattern before it consumes one more character. *)
Fixpoint match_here (dotall : bool) (r : list atom) : list N -> option nat :=
  match r with
  | [] => fun _ => Some 0
  | Chr c :: r' =>
      fun s =>
        match s with
        | x :: s' => if N.eqb x c then S <$> match_here dotall r' s' else None
        | [] => None
        end
  | LazyAny :: r' =>
      fix lazy (s : list N) : option nat :=
        match match_here dotall r' s with
        | Some n => Some n
        | None =>
            match s with
            | x :: s' => if dot_matches dotall x then S <$> lazy s' else None
            | [] => None
            end
        end
  end.

(** The scan of [re.sub]: left to right, at each position outside a
    match the pattern is tried; a match is replaced by [repl] and its
    characters are skipped ([skip] counts those still to drop). *)
Fixpoint sub_go (dotall : bool) (r : list atom) (repl : list N)
    (skip : nat) (s : list N) {struct s} : list N :=
  match s with
  | [] =>
      match skip, match_here dotall r [] with
      | 0, Some _ => repl
      | _, _ => []
      end
  | c :: s' =>
      match skip with
      | S k => sub_go dotall r repl k s'
      | 0 =>
          match match_here dotall r s with
          | Some (S n) => repl ++ sub_go dotall r repl n s'
          | Some 0 => repl ++ c :: sub_go dotall r repl 0 s'
          | None => c :: sub_go dotall r repl 0 s'
          end
      end
  end.

(** [re.sub(pattern, repl, s, flags)]; [None] when the pattern does not
    compile. *)
Definition sub (pattern repl s : list N) (dotall : bool) : option (list N) :=
  r ← compile pattern; Some (sub_go dotall r repl 0 s).

End Re.

(** ** The world the script runs in *)

(** File-system calls that can fail. *)
Inductive fs_op : Type :=
  | OpRemove (p : list N)
  | OpOpenR (p : list N)
  | OpOpenW (p : list N)
  | OpWrite (p : list N).

Record World : Type := {
  environ_SHELL : option (list N);   (* the SHELL variable, if set *)
  home : list N;                     (* the user's home directory *)
  files : gmap (list N) (list N);    (* files and their text *)
  faults : fs_op -> option (list N); (* the OS error a call meets, if any *)
  short_write : list N -> nat;       (* characters a failing write stores *)
  stdin : list N                     (* the line that input() reads *)
}.

Inductive exn : Type :=
  | FileNotFoundError (p : list N)
  | OSError (op : fs_op) (msg : list N)
  | TypeError
  | ReError.

(** The text of [{e}] in an f-string. *)
Definition exn_str (e : exn) : list N :=
  match e with
  | FileNotFoundError p =>
      Py.lit "[Errno 2] No such file or directory: '" ++ p ++ Py.lit "'"
  | OSError _ msg => msg
  | TypeError => Py.lit "expected str, bytes or os.PathLike object, not NoneType"
  | ReError => Py.lit "bad pattern"
  end.

(** Calls on files, in the order the program makes them. *)
Inductive call : Type :=
  | CallRemove (p : list N)
  | CallOpenR (p : list N)
  | CallOpenW (p : list N)
  | CallWrite (p data : list N).

Record State : Type := {
  fs : gmap (list N) (list N);
  stdout : list (list N);
  calls : list call
}.

Definition set_fs (f : gmap (list N) (list N)) (st : State) : State :=
  {| fs := f; stdout := stdout st; calls := calls st |}.

Definition log (c : call) (st : State) : State :=
  {| fs := fs st; stdout := stdout st; calls := calls st ++ [c] |}.

Definition emit (line : list N) (st : State) : State :=
  {| fs := fs st; stdout := stdout st ++ [line]; calls := calls st |}.

(** A computation: it transforms the state and returns a value or raises. *)
Definition M (A : Type) : Type := State -> State * (exn + A).

#[export] Instance M_ret : MRet M := fun A x st => (st, inr x).

#[export] Instance M_bind : MBind M := fun A B k m st =>
  match m st with
  | (st', inl e) => (st', inl e)
  | (st', inr x) => k x st'
  end.

Definition raise {A : Type} (e : exn) : M A := fun st => (st, inl e).

Definition gets {A : Type} (f : State -> A) : M A := fun st => (st, inr (f st)).

(** [try: body / except <handles>: handler] *)
Definition try_except {A : Type} (body : M A) (handles : exn -> bool)
    (handler : exn -> M A) : M A := fun st =>
  match body st with
  | (st', inl e) => if handles e then handler e st' else (st', inl e)
  | r => r
  end.

Definition is_FileNotFoundError (e : exn) : bool :=
  match e with FileNotFoundError _ => true | _ => false end.

Definition is_Exception (e : exn) : bool := true.

Definition path_exists (f : gmap (list N) (list N)) (p : list N) : bool :=
  match f !! p with Some _ => true | None => false end.

Section Runtime.

Variable w : World.

(** [print(line)] *)
Definition print (line : list N) : M unit := fun st => (emit line st, inr tt).

(** [input(prompt)] *)
Definition input (prompt : list N) : M (list N) := fun st =>
  (emit prompt st, inr (stdin w)).

(** [os.path.exists(p)] *)
Definition os_path_exists (p : list N) : M bool :=
  gets (fun st => path_exists (fs st) p).

(** [os.remove(p)] *)
Definition os_remove (p : list N) : M unit := fun st =>
  let st1 := log (CallRemove p) st in
  match faults w (OpRemove p) with
  | Some msg => (st1, inl (OSError (OpRemove p) msg))
  | None =>
      match fs st !! p with
      | None => (st1, inl (FileNotFoundError p))
      | Some _ => (set_fs (delete p (fs st)) st1, inr tt)
      end
  end.

(** A path argument of [open]: [None] is a type error. *)
Definition as_path (v : option (list N)) : M (list N) :=
  match v with
  | Some p => mret p
  | None => raise TypeError
  end.

(** [with open(p, "r") as f: f.read()] *)
Definition read_text (p : list N) : M (list N) := fun st =>
  let st1 := log (CallOpenR p) st in
  match faults w (OpOpenR p) with
  | Some msg => (st1, inl (OSError (OpOpenR p) msg))
  | None =>
      match fs st !! p with
      | None => (st1, inl (FileNotFoundError p))
      | Some c => (st1, inr (Py.universal_newlines c))
      end
  end.

(** [with open(p, "w") as f: f.write(data)].  Opening truncates or
    creates the file; the one [write] call then stores [data], or fails
    with the first [short_write w p] characters of [data] stored. *)
Definition write_text (p data : list N) : M unit := fun st =>
  let st1 := log (CallOpenW p) st in
  match faults w (OpOpenW p) with
  | Some msg => (st1, inl (OSError (OpOpenW p) msg))
  | None =>
      let st2 := log (CallWrite p data) (set_fs (<[p := []]> (fs st)) st1) in
      match faults w (OpWrite p) with
      | Some msg =>
          (set_fs (<[p := take (short_write w p) data]> (fs st)) st2,
           inl (OSError (OpWrite p) msg))
      | None => (set_fs (<[p := data]> (fs st)) st2, inr tt)
      end
  end.

End Runtime.

(** ** The installer *)

Import Py.

(** [get_shell_config()]: the configuration file and the kind of shell,
    or [(None, None)].  [f] is the file system it looks at. *)
Definition get_shell_config (w : World) (f : gmap (list N) (list N))
    : option (list N) * option (list N) :=
  let shell := lower (default [] (environ_SHELL w)) in
  let home := home w in
  if contains (lit "zsh") shell then
    (Some (OsPath.join home (lit ".zshrc")), Some (lit "zsh"))
  else if contains (lit "bash") shell then
    let bash_rc := OsPath.join home (lit ".bashrc") in
    let bash_profile := OsPath.join home (lit ".bash_profile") in
    if path_exists f bash_rc then (Some bash_rc, Some (lit "bash"))
    else if path_exists f bash_profile then (Some bash_profile, Some (lit "bash"))
    else (None, None)
  else (None, None).

Definition base_script : list N :=
  lit "# Create log file if it doesn't exist" ++ nl ++
  lit "touch ~/.shell_history_with_output" ++ nl ++
  nl ++
  lit "# Function to capture terminal interaction" ++ nl ++
  lit "function capture_output() {" ++ nl ++
  lit "    local cmd=$1" ++ nl ++
  lit "    echo " ++ dq ++ lit "user: $cmd" ++ dq ++
    lit " >> ~/.shell_history_with_output" ++ nl ++
  lit "    echo " ++ dq ++ lit "computer:" ++ dq ++
    lit " >> ~/.shell_history_with_output" ++ nl ++
  lit "    eval " ++ dq ++ lit "$cmd" ++ dq ++
    lit " >> ~/.shell_history_with_output 2>&1" ++ nl ++
  lit "}" ++ nl ++
  nl ++
  lit "# Command not found handler that pipes context to interpreter" ++ nl ++
  lit "command_not_found_handler() {" ++ nl ++
  lit "    cat ~/.shell_history_with_output | interpreter" ++ nl ++
  lit "    return 0" ++ nl ++
  lit "}" ++ nl ++
  nl ++
  lit "# Hook into preexec".

Definition zsh_hook : list N :=
  nl ++ lit "preexec() {" ++ nl ++
  lit "    capture_output " ++ dq ++ lit "$1" ++ dq ++ nl ++
  lit "}" ++ nl.

Definition bash_hook : list N :=
  nl ++ lit "trap 'capture_output " ++ dq ++
  lit "$(HISTTIMEFORMAT= history 1 | sed " ++ dq ++
  lit "s/^[ ]*[0-9]*[ ]*//" ++ dq ++ lit ")" ++ dq ++
  lit " ' DEBUG" ++ nl.

(** [get_shell_script(shell_type)] *)
Definition get_shell_script (shell_type : option (list N)) : option (list N) :=
  if value_eqb shell_type (lit "zsh") then Some (base_script ++ zsh_hook)
  else if value_eqb shell_type (lit "bash") then Some (base_script ++ bash_hook)
  else None.

Definition start_marker : list N := lit "### <openinterpreter> ###".
Definition end_marker : list N := lit "### </openinterpreter> ###".

(** The pattern of [main], [f"{start_marker}.*?{end_marker}"]. *)
Definition pattern : list N := start_marker ++ lit ".*?" ++ end_marker.

Definition manual_msg : list N :=
  lit "Please visit docs.openinterpreter.com/shell for manual installation instructions.".

Definition reinstall_prompt : list N :=
  lit "Open Interpreter shell integration appears to be already installed. Would you like to reinstall? (y/n): ".

Definition success_msg (config_path : option (list N)) : list N :=
  lit "Successfully installed Open Interpreter shell integration to "
  ++ format config_path.

Definition restart_msg : list N :=
  lit "Please restart your shell or run 'source ~/.zshrc' to apply changes.".

Definition error_msg (config_path : option (list N)) (e : exn) : list N :=
  lit "Error writing to " ++ format config_path ++ lit ": " ++ exn_str e.

(** The text [main] builds for the configuration file. *)
Definition new_content (content : list N) (shell_script : option (list N))
    : list N :=
  rstrip content ++ nl ++ nl ++ start_marker ++ nl
  ++ format shell_script ++ nl ++ end_marker ++ nl.

(** [re.sub(pattern, "", content, flags=re.DOTALL)], the removal of the
    existing installation. *)
Definition remove_existing (content : list N) : option (list N) :=
  Re.sub pattern [] content true.

Section Main.

Variable w : World.

(** "Clean up history file" and "Create fresh history file". *)
Definition reset_history (history_file : list N) : M unit :=
  ex ← os_path_exists history_file;
  (if ex : bool then os_remove w history_file else mret tt);;
  write_text w history_file [].

(** "Read existing config": a missing file reads as the empty text. *)
Definition read_config (config_path : option (list N)) : M (list N) :=
  try_except
    (p ← as_path config_path; read_text w p)
    is_FileNotFoundError
    (fun _ => mret []).

(** The end of [main], from "Get appropriate shell script" on. *)
Definition write_back (config_path shell_type : option (list N))
    (content : list N) : M unit :=
  let shell_script := get_shell_script shell_type in
  let new := new_content content shell_script in
  try_except
    (p ← as_path config_path;
     write_text w p new;;
     print (success_msg config_path);;
     print restart_msg)
    is_Exception
    (fun e =>
       print (error_msg config_path e);;
       print manual_msg).

(** "Check if markers exist" and "Remove existing installation", then the
    write. *)
Definition patch (config_path shell_type : option (list N))
    (content : list N) : M unit :=
  if contains start_marker content then
    response ← input w reinstall_prompt;
    if negb (eqb (lower response) (lit "y")) then
      print (lit "Installation cancelled.")
    else
      match remove_existing content with
      | None => raise ReError
      | Some content' => write_back config_path shell_type content'
      end
  else write_back config_path shell_type content.

(** [main()] *)
Definition main : M unit :=
  print (lit "Starting installation...");;
  cfg ← gets (fun st => get_shell_config w (fs st));
  let '(config_path, shell_type) := cfg in
  if negb (truthy config_path) || negb (truthy shell_type) then
    print (lit "Could not determine your shell configuration.");;
    print manual_msg
  else
    let history_file :=
      OsPath.expanduser (home w) (lit "~/.shell_history_with_output") in
    reset_history history_file;;
    content ← read_config config_path;
    patch config_path shell_type content.

Definition initial : State :=
  {| fs := files w; stdout := []; calls := [] |}.

(** One run of the script: the state it leaves and how it ended. *)
Definition run : State * (exn + unit) := main initial.

End Main.

(** ** Vocabulary of the properties *)

(** The transcript file. *)
Definition history_path (w : World) : list N :=
  OsPath.expanduser (home w) (lit "~/.shell_history_with_output").

(** The blocks of a text, found by offsets: the first start marker, the
    first end marker after it, and so on in what follows.  The result
    lists each block with the text before it, and gives the text after
    the last block. *)
Fixpoint scan (fuel : nat) (s : list N)
    : list (list N * list N) * list N :=
  match fuel with
  | 0 => ([], s)
  | S fuel' =>
      match find start_marker s with
      | None => ([], s)
      | Some i =>
          match find end_marker (drop (i + length start_marker) s) with
          | None => ([], s)
          | Some j =>
              let n := length start_marker + j + length end_marker in
              let '(bs, rest) := scan fuel' (drop (i + n) s) in
              ((take i s, take n (drop i s)) :: bs, rest)
          end
      end
  end.

Definition parse (s : list N) : list (list N * list N) * list N :=
  scan (length s) s.

(** The text of [s] outside its blocks. *)
Definition outside (s : list N) : list N :=
  concat (map fst (fst (parse s))) ++ snd (parse s).

(** The blocks of [s]. *)
Definition blocks (s : list N) : list (list N) := map snd (fst (parse s)).

Definition count_blocks (s : list N) : nat := length (fst (parse s)).

(** The block [main] inserts around [body]. *)
Definition hook_block (body : list N) : list N :=
  start_marker ++ nl ++ body ++ nl ++ end_marker.

(** Detection found the configuration file [p] for a shell of kind [ty]. *)
Definition detected (w : World) (p ty : list N) : Prop :=
  get_shell_config w (files w) = (Some p, Some ty).

(** The operating system lets the reset of the transcript go through. *)
Definition reset_ok (w : World) : Prop :=
  faults w (OpRemove (history_path w)) = None
  /\ faults w (OpOpenW (history_path w)) = None
  /\ faults w (OpWrite (history_path w)) = None.

(** The text stored in the file [p] before the run; the empty text when
    there is no such file. *)
Definition stored_content (w : World) (p : list N) : list N :=
  default [] (files w !! p).

(** The text of the configuration file before the run, as [main] reads
    it: the stored text with its line ends translated. *)
Definition old_content (w : World) (p : list N) : list N :=
  universal_newlines (stored_content w p).

(** Line-end characters. *)
Definition is_newline (c : N) : bool := N.eqb c 10 || N.eqb c 13.

(** A text without line-end characters. *)
Definition plain (s : list N) : Prop := Forall (fun c => is_newline c = false) s.

(** Two texts that agree up to their line ends: the same characters
    between line ends, and a run of line-end characters in one where
    there is a run of them in the other. *)
Inductive same_lines : list N -> list N -> Prop :=
  | same_lines_nil : same_lines [] []
  | same_lines_char c a b :
      is_newline c = false -> same_lines a b -> same_lines (c :: a) (c :: b)
  | same_lines_nl x y a b :
      is_newline x = true -> is_newline y = true ->
      same_lines a b -> same_lines (x :: a) (y :: b)
  | same_lines_nl_l x y a b :
      is_newline x = true -> is_newline y = true ->
      same_lines a (y :: b) -> same_lines (x :: a) (y :: b)
  | same_lines_nl_r x y a b :
      is_newline x = true -> is_newline y = true ->
      same_lines (x :: a) b -> same_lines (x :: a) (y :: b).

(** The user accepts the reinstallation. *)
Definition accepts (w : World) : bool := eqb (lower (stdin w)) (lit "y").

(** The run ended with the success messages. *)
Definition installed (w : World) : Prop :=
  snd (run w) = inr tt /\ last (stdout (fst (run w))) = Some restart_msg.

(** The run ended with the cancellation message. *)
Definition cancelled (w : World) : Prop :=
  snd (run w) = inr tt
  /\ last (stdout (fst (run w))) = Some (lit "Installation cancelled.").

(** The call [c] opens, writes or removes the file [p]. *)
Definition touches (p : list N) (c : call) : Prop :=
  match c with
  | CallRemove q | CallOpenR q | CallOpenW q | CallWrite q _ => q = p
  end.

(** The call [c] changes a file. *)
Definition mutates (c : call) : Prop :=
  match c with
  | CallOpenR _ => False
  | _ => True
  end.

(** The pattern of [main], compiled: the markers are ordinary
    characters, the only operator is the lazy wildcard between them. *)
Definition compiled : list Re.atom :=
  map Re.Chr start_marker ++ Re.LazyAny :: map Re.Chr end_marker.

(** The scan of the substitution of [main]. *)
Abbreviation sub_go := (Re.sub_go true compiled []).

(** A delimited block: the start marker, a text, and the first end
    marker that follows the start marker. *)
Definition delimited (b : list N) : Prop :=
  exists mid, b = start_marker ++ mid ++ end_marker
              /\ find end_marker (mid ++ end_marker) = Some (length mid).

(** A text put back together from its parts. *)
Definition unparse (bs : list (list N * list N)) (rest : list N) : list N :=
  concat (map (fun tb => fst tb ++ snd tb) bs) ++ rest.

(** The computation [m] leaves every file other than [p] as it is and
    makes calls on [p] only. *)
Definition frames {A : Type} (p : list N) (m : M A) : Prop :=
  forall st,
    (forall q, q <> p -> fs (fst (m st)) !! q = fs st !! q)
    /\ exists l, calls (fst (m st)) = calls st ++ l /\ Forall (touches p) l.

(** The state after the first message and the reset of the transcript. *)
Definition after_reset (w : World) : State :=
  {| fs := <[history_path w := []]> (files w);
     stdout := [lit "Starting installation..."];
     calls := (if path_exists (files w) (history_path w)
               then [CallRemove (history_path w)] else [])
              ++ [CallOpenW (history_path w); CallWrite (history_path w) []] |}.

(** The state in which [main] starts to write back, after the reset,
    the reading of the file [p] and, with a block present, the prompt. *)
Definition before_write (w : World) (p : list N) : State :=
  {| fs := <[history_path w := []]> (files w);
     stdout := lit "Starting installation..."
               :: (if contains start_marker (old_content w p)
                   then [reinstall_prompt] else []);
     calls := calls (after_reset w) ++ [CallOpenR p] |}.

(** ** Candidate statements and sample worlds *)

(** The bash row of the detection matrix, read without regard to the
    zsh row. *)
Definition bash_row (w : World) (f : gmap (list N) (list N)) : Prop :=
  contains (lit "bash") (lower (default [] (environ_SHELL w))) = true ->
  path_exists f (OsPath.join (home w) (lit ".bashrc")) = true ->
  get_shell_config w f
  = (Some (OsPath.join (home w) (lit ".bashrc")), Some (lit "bash")).

(** One block after the install, the text around it the one stored
    before, up to trailing whitespace. *)
Definition single_block_after_install (w : World) (p : list N) : Prop :=
  installed w ->
  exists new pre blk post,
    fs (fst (run w)) !! p = Some new
    /\ parse new = ([(pre, blk)], post)
    /\ rstrip (pre ++ post) = rstrip (outside (stored_content w p)).

(** After a run, no start marker is left in the file without an end
    marker after it. *)
Definition no_partial_block_left (w : World) (p : list N) : Prop :=
  snd (run w) = inr tt
  /\ forall text i,
       fs (fst (run w)) !! p = Some text ->
       find start_marker text = Some i ->
       find end_marker (drop (i + length start_marker) text) <> None.

(** Removal takes out the first span and nothing else. *)
Definition only_first_span_removed (content : list N) : Prop :=
  forall i j,
    find start_marker content = Some i ->
    find end_marker (drop (i + length start_marker) content) = Some j ->
    remove_existing content
    = Some (take i content
            ++ drop (i + length start_marker + j + length end_marker) content).

(** With several blocks before, one block after the reinstall. *)
Definition one_block_after_reinstall (w : World) (p : list N) : Prop :=
  forall content,
    files w !! p = Some content -> 2 <= count_blocks content ->
    accepts w = true -> installed w ->
    exists new, fs (fst (run w)) !! p = Some new /\ count_blocks new = 1.

Definition no_faults : fs_op -> option (list N) := fun _ => None.

Definition zshrc : list N := lit "/home/u/.zshrc".

(** A world with zsh, the given text in [~/.zshrc] and the given answer. *)
Definition zsh_world (content answer : list N) : World :=
  {| environ_SHELL := Some (lit "/bin/zsh");
     home := lit "/home/u";
     files := {[ zshrc := content;
                 lit "/home/u/.shell_history_with_output" := lit "user: ls" ]};
     faults := no_faults;
     short_write := fun _ => 0;
     stdin := answer |}.

(** A user whose name has "bash" in it and whose shell is zsh. *)
Definition bashir_world : World :=
  {| environ_SHELL := Some (lit "/home/bashir/bin/zsh");
     home := lit "/home/bashir";
     files := {[ lit "/home/bashir/.bashrc" := [] ]};
     faults := no_faults;
     short_write := fun _ => 0;
     stdin := [] |}.

Definition bash_world : World :=
  {| environ_SHELL := Some (lit "/bin/bash");
     home := lit "/home/u";
     files := {[ lit "/home/u/.bash_profile" := lit "export B=2" ]};
     faults := no_faults;
     short_write := fun _ => 0;
     stdin := [] |}.

Definition fish_world : World :=
  {| environ_SHELL := Some (lit "/usr/bin/fish");
     home := lit "/home/u";
     files := {[ lit "/home/u/.shell_history_with_output" := lit "user: ls" ]};
     faults := no_faults;
     short_write := fun _ => 0;
     stdin := [] |}.

(** A block with the given text between the markers. *)
Definition block_of (mid : list N) : list N :=
  start_marker ++ mid ++ end_marker.

(** A start marker cut in two by a block, and an end marker after it:
    taking the block out leaves a complete block. *)
Definition spliced : list N :=
  lit "### <openinterpreter" ++ block_of (lit "x") ++ lit "> ###"
  ++ lit "y" ++ end_marker.

Definition two_blocks : list N :=
  lit "export A=1" ++ nl ++ block_of (lit "old") ++ nl ++ lit "alias l=ls"
  ++ nl ++ block_of (lit "older") ++ nl ++ nl.

(** A world where the disk is full when the configuration is written. *)
Definition disk_full_world : World :=
  {| environ_SHELL := Some (lit "/bin/zsh");
     home := lit "/home/u";
     files := {[ zshrc := lit "export A=1" ]};
     faults := fun op =>
       match op with
       | OpWrite p =>
           if eqb p zshrc then Some (lit "[Errno 28] No space left on device")
           else None
       | _ => None
       end;
     short_write := fun _ => 0;
     stdin := [] |}.

(** A file with Windows line ends. *)
Definition crlf_text : list N :=
  lit "export A=1" ++ [13%N; 10%N] ++ lit "alias l=ls" ++ [13%N; 10%N].

(** A world where the write of the configuration stops after a hundred
    characters, at the limit on the size of files. *)
Definition file_limit_world : World :=
  {| environ_SHELL := Some (lit "/bin/zsh");
     home := lit "/home/u";
     files := {[ zshrc := lit "export A=1" ]};
     faults := fun op =>
       match op with
       | OpWrite p =>
           if eqb p zshrc then Some (lit "[Errno 27] File too large")
           else None
       | _ => None
       end;
     short_write := fun _ => 100;
     stdin := [] |}.

(** ** Further sample worlds *)

Definition transcript : list N := lit "/home/u/.shell_history_with_output".

(** zsh, no [~/.zshrc] yet. *)
Definition fresh_world : World :=
  {| environ_SHELL := Some (lit "/usr/bin/zsh");
     home := lit "/home/u";
     files := {[ transcript := lit "user: ls" ]};
     faults := no_faults;
     short_write := fun _ => 0;
     stdin := [] |}.

(** zsh, the given text in [~/.zshrc], and the given failures. *)
Definition faulty_world (f : fs_op -> option (list N)) (content : list N)
    : World :=
  {| environ_SHELL := Some (lit "/bin/zsh");
     home := lit "/home/u";
     files := {[ zshrc := content; transcript := lit "user: ls" ]};
     faults := f;
     short_write := fun _ => 0;
     stdin := lit "y" |}.

(** [~/.zshrc] cannot be read. *)
Definition unreadable (op : fs_op) : option (list N) :=
  match op with
  | OpOpenR p =>
      if eqb p zshrc then Some (lit "[Errno 13] Permission denied") else None
  | _ => None
  end.

(** The transcript can be removed but not created again. *)
Definition no_create (op : fs_op) : option (list N) :=
  match op with
  | OpOpenW p =>
      if eqb p transcript then Some (lit "[Errno 13] Permission denied")
      else None
  | _ => None
  end.

(** * Properties *)

(** ** Text *)

Section PyFacts.

Implicit Types (pat s a b : list N) (c : N).

Lemma eqb_eq a b : eqb a b = true <-> a = b.
Proof.
  revert b. induction a as [|x a IH]; intros [|y b]; simpl; try easy.
  rewrite andb_true_iff, N.eqb_eq, IH. split.
  - intros [-> ->]. reflexivity.
  - intros [= -> ->]. split; reflexivity.
Qed.

Lemma eqb_refl a : eqb a a = true.
Proof. apply eqb_eq. reflexivity. Qed.

Lemma startswith_app pat s : startswith pat (pat ++ s) = true.
Proof.
  induction pat as [|x pat IH]; simpl; [reflexivity|].
  rewrite N.eqb_refl. exact IH.
Qed.

Lemma startswith_inv pat s :
  startswith pat s = true -> s = pat ++ drop (length pat) s.
Proof.
  revert s. induction pat as [|x pat IH]; intros [|y s]; simpl; try easy.
  rewrite andb_true_iff, N.eqb_eq. intros [-> H].
  f_equal. apply IH, H.
Qed.

Lemma startswith_length pat s :
  startswith pat s = true -> length pat <= length s.
Proof.
  intros H. apply startswith_inv, (f_equal length) in H.
  rewrite length_app in H. lia.
Qed.

(** A pattern that fits in [s] is looked for in [s] alone. *)
Lemma startswith_app_long pat s b :
  length pat <= length s -> startswith pat (s ++ b) = startswith pat s.
Proof.
  revert s. induction pat as [|x pat IH]; intros [|y s] Hl; simpl in *;
    try reflexivity; try lia.
  rewrite IH by lia. reflexivity.
Qed.

Lemma startswith_app_l pat s b :
  startswith pat s = true -> startswith pat (s ++ b) = true.
Proof.
  intros H. rewrite startswith_app_long; [exact H|].
  apply startswith_length, H.
Qed.

(** A pattern without the character [c] cannot reach across it. *)
Lemma startswith_sep pat s c b :
  c ∉ pat -> startswith pat (s ++ c :: b) = startswith pat s.
Proof.
  revert s. induction pat as [|x pat IH]; intros s Hc; [by destruct s|].
  apply not_elem_of_cons in Hc as [Hx Hc].
  destruct s as [|y s]; simpl.
  - destruct (N.eqb_spec x c); [congruence | reflexivity].
  - rewrite IH by exact Hc. reflexivity.
Qed.

Lemma find_Some_iff pat s i :
  find pat s = Some i <->
  i <= length s /\ startswith pat (drop i s) = true
  /\ forall k, k < i -> startswith pat (drop k s) = false.
Proof.
  revert i. induction s as [|y s IH]; intros i; simpl.
  - destruct (startswith pat []) eqn:E.
    + split.
      * intros [= <-]. split; [lia|]. split; [exact E | lia].
      * intros (Hi & _ & _). f_equal. lia.
    + split; [easy|]. intros (Hi & H & _).
      rewrite drop_nil in H. congruence.
  - destruct (startswith pat (y :: s)) eqn:E.
    + split.
      * intros [= <-]. split; [lia|]. split; [exact E | lia].
      * intros (_ & _ & H). destruct i as [|i]; [reflexivity|].
        specialize (H 0 ltac:(lia)). simpl in H. congruence.
    + destruct i as [|i].
      * split.
        -- destruct (find pat s); discriminate.
        -- intros (_ & H & _). simpl in H. congruence.
      * specialize (IH i). split.
        -- intros H. destruct (find pat s) as [j|] eqn:F; [|discriminate].
           injection H as ->. apply proj1 in IH.
           destruct (IH eq_refl) as (Hi & Hs & Hk).
           split; [lia|]. split; [exact Hs|].
           intros [|k] Hlt; [exact E | apply Hk; lia].
        -- intros (Hi & Hs & Hk). apply proj2 in IH. rewrite IH; [reflexivity|].
           split; [lia|]. split; [exact Hs|].
           intros k Hlt. apply (Hk (S k)). lia.
Qed.

Lemma find_None_iff pat s :
  find pat s = None <-> forall k, startswith pat (drop k s) = false.
Proof.
  induction s as [|y s IH]; simpl.
  - destruct (startswith pat []) eqn:E.
    + split; [easy|]. intros H. specialize (H 0). simpl in H. congruence.
    + split; [|easy]. intros _ k. rewrite drop_nil. exact E.
  - destruct (startswith pat (y :: s)) eqn:E.
    + split; [easy|]. intros H. specialize (H 0). simpl in H. congruence.
    + split.
      * intros H [|k]; [exact E|]. simpl.
        destruct (find pat s); [discriminate|]. apply IH. reflexivity.
      * intros H. rewrite (proj2 IH); [reflexivity|].
        intros k. apply (H (S k)).
Qed.

Lemma find_le pat s i : find pat s = Some i -> i + length pat <= length s.
Proof.
  intros H. apply find_Some_iff in H as (Hi & Hs & _).
  apply startswith_length in Hs. rewrite length_drop in Hs. lia.
Qed.

(** The text at and after the first occurrence. *)
Lemma find_split pat s i :
  find pat s = Some i -> s = take i s ++ pat ++ drop (i + length pat) s.
Proof.
  intros H. apply find_Some_iff in H as (_ & Hs & _).
  apply startswith_inv in Hs. rewrite drop_drop in Hs.
  rewrite <- Hs. symmetry. apply take_drop.
Qed.

(** A first occurrence stays the first one when text is added. *)
Lemma find_app_l pat s b i :
  find pat s = Some i -> find pat (s ++ b) = Some i.
Proof.
  intros H. pose proof (find_le _ _ _ H) as Hle.
  apply find_Some_iff in H as (Hi & Hs & Hk).
  apply find_Some_iff. rewrite length_app. split; [lia|]. split.
  - rewrite drop_app_le by lia. apply startswith_app_l, Hs.
  - intros k Hlt. rewrite drop_app_le by lia.
    rewrite startswith_app_long; [apply Hk, Hlt|].
    rewrite length_drop. lia.
Qed.

(** No occurrence in [s]: none in what remains of it either. *)
Lemma find_None_drop pat s n : find pat s = None -> find pat (drop n s) = None.
Proof.
  rewrite !find_None_iff. intros H k. rewrite drop_drop. apply H.
Qed.

Lemma find_None_app_l pat s b : find pat (s ++ b) = None -> find pat s = None.
Proof.
  intros H. destruct (find pat s) as [i|] eqn:E; [|reflexivity].
  rewrite (find_app_l _ _ b _ E) in H. discriminate.
Qed.

(** Search across a character that the pattern does not contain. *)
Lemma find_sep pat s c b :
  c ∉ pat -> find pat s = None ->
  find pat (s ++ c :: b) = (fun k => length s + 1 + k) <$> find pat b.
Proof.
  intros Hc. induction s as [|y s IH]; intros H.
  - pose proof (startswith_sep pat [] c b Hc) as Hs.
    simpl in *. rewrite Hs.
    destruct (startswith pat []); [discriminate|].
    destruct (find pat b); reflexivity.
  - pose proof (startswith_sep pat (y :: s) c b Hc) as Hs.
    simpl in *. rewrite Hs.
    destruct (startswith pat (y :: s)); [discriminate|].
    destruct (find pat s) eqn:F; [discriminate|].
    rewrite IH by reflexivity. destruct (find pat b); reflexivity.
Qed.

(** The occurrence at the end of [a ++ pat] is the first one of the
    whole text as soon as it is the first one there. *)
Lemma find_first_app pat a b :
  find pat (a ++ pat) = Some (length a) ->
  find pat (a ++ pat ++ b) = Some (length a).
Proof. intros H. rewrite app_assoc. apply find_app_l, H. Qed.

Lemma contains_true pat s :
  contains pat s = true <-> exists i, find pat s = Some i.
Proof.
  unfold contains. destruct (find pat s) as [i|].
  - split; [eauto | reflexivity].
  - split; [discriminate | intros [i [=]]].
Qed.

Lemma contains_false pat s : contains pat s = false <-> find pat s = None.
Proof. unfold contains. destruct (find pat s); split; congruence. Qed.

Lemma lower_length s : length (lower s) = length s.
Proof. apply length_map. Qed.

(** [rstrip] removes a run of whitespace at the end and nothing else. *)
Lemma rstrip_spec s :
  exists ws, s = rstrip s ++ ws /\ Forall (fun c => isspace c = true) ws.
Proof.
  induction s as [|c s (ws & Hs & Hws)]; [exists []; split; [reflexivity | constructor]|].
  simpl. destruct (rstrip s) as [|r rs] eqn:E.
  - destruct (isspace c) eqn:Hc.
    + exists (c :: ws). split; [simpl in *; congruence | by constructor].
    + exists ws. split; [simpl in *; congruence | exact Hws].
  - exists ws. split; [simpl in *; congruence | exact Hws].
Qed.

Lemma rstrip_last s c : last (rstrip s) = Some c -> isspace c = false.
Proof.
  revert c. induction s as [|x s IH]; intros c; simpl; [discriminate|].
  destruct (rstrip s) as [|r rs] eqn:E.
  - destruct (isspace x) eqn:Hx; simpl; [discriminate|]. congruence.
  - rewrite last_cons_cons. apply IH.
Qed.

Lemma rstrip_find_None pat s : find pat s = None -> find pat (rstrip s) = None.
Proof.
  destruct (rstrip_spec s) as (ws & Hs & _). intros H.
  rewrite Hs in H. exact (find_None_app_l _ _ _ H).
Qed.

End PyFacts.

(** ** The substitution of [main] *)

Section ReFacts.

Implicit Types (s l : list N) (r : list Re.atom).

Lemma compile_pattern : Re.compile pattern = Some compiled.
Proof. vm_compute. reflexivity. Qed.

Lemma match_here_chars d l r s :
  Re.match_here d (map Re.Chr l ++ r) s =
  if startswith l s
  then (fun n => length l + n) <$> Re.match_here d r (drop (length l) s)
  else None.
Proof.
  revert s. induction l as [|x l IH]; intros s.
  - simpl. rewrite drop_0. destruct (Re.match_here d r s); reflexivity.
  - destruct s as [|y s]; [reflexivity|].
    cbn [map app Re.match_here startswith length drop].
    rewrite (N.eqb_sym y x). destruct (N.eqb x y); [|reflexivity].
    rewrite IH. cbn [andb]. destruct (startswith l s); [|reflexivity].
    destruct (Re.match_here d r (drop (length l) s)); reflexivity.
Qed.

Lemma match_here_lazy d r s :
  Re.match_here d (Re.LazyAny :: r) s =
  match Re.match_here d r s with
  | Some n => Some n
  | None =>
      match s with
      | x :: s' =>
          if Re.dot_matches d x
          then S <$> Re.match_here d (Re.LazyAny :: r) s'
          else None
      | [] => None
      end
  end.
Proof. destruct s; reflexivity. Qed.

(** Under DOTALL the lazy wildcard followed by a literal finds the first
    occurrence of the literal. *)
Lemma match_here_only_chars d l s :
  Re.match_here d (map Re.Chr l) s =
  if startswith l s then Some (length l) else None.
Proof.
  rewrite <- (app_nil_r (map Re.Chr l)), match_here_chars.
  destruct (startswith l s); [|reflexivity]. simpl. f_equal. lia.
Qed.

(** Under DOTALL the lazy wildcard followed by a literal finds the first
    occurrence of the literal. *)
Lemma match_here_lazy_chars l s :
  Re.match_here true (Re.LazyAny :: map Re.Chr l) s =
  (fun j => j + length l) <$> find l s.
Proof.
  induction s as [|x s IH]; rewrite match_here_lazy, match_here_only_chars.
  - simpl. destruct (startswith l []); reflexivity.
  - rewrite IH. cbn [find Re.dot_matches orb].
    destruct (startswith l (x :: s)); [reflexivity|].
    destruct (find l s); reflexivity.
Qed.

Lemma match_here_pattern s :
  Re.match_here true compiled s =
  if startswith start_marker s
  then (fun j => length start_marker + j + length end_marker)
         <$> find end_marker (drop (length start_marker) s)
  else None.
Proof.
  unfold compiled. rewrite match_here_chars, match_here_lazy_chars.
  destruct (startswith start_marker s); [|reflexivity].
  destruct (find end_marker _); simpl; [f_equal; lia | reflexivity].
Qed.

Lemma match_here_pattern_pos s n :
  Re.match_here true compiled s = Some n -> 0 < n.
Proof.
  rewrite match_here_pattern.
  destruct (startswith start_marker s); [|discriminate].
  destruct (find end_marker _); [|discriminate].
  intros [= <-]. change (length start_marker) with 25. lia.
Qed.

Lemma sub_go_nil k : sub_go k [] = [].
Proof.
  simpl. destruct k; [destruct (Re.match_here true compiled [])|]; reflexivity.
Qed.

Lemma sub_go_skip k s : sub_go k s = sub_go 0 (drop k s).
Proof.
  revert k. induction s as [|c s IH]; intros k.
  - rewrite drop_nil, !sub_go_nil. reflexivity.
  - destruct k as [|k]; [reflexivity|]. simpl. apply IH.
Qed.

Lemma sub_go_None c s :
  Re.match_here true compiled (c :: s) = None -> sub_go 0 (c :: s) = c :: sub_go 0 s.
Proof. intros H. cbn [Re.sub_go]. rewrite H. reflexivity. Qed.

Lemma sub_go_Some s n :
  Re.match_here true compiled s = Some n -> sub_go 0 s = sub_go 0 (drop n s).
Proof.
  intros H. pose proof (match_here_pattern_pos _ _ H) as Hn.
  destruct s as [|c s]; [rewrite drop_nil; reflexivity|].
  destruct n as [|n]; [lia|].
  cbn [Re.sub_go]. rewrite H. simpl. apply sub_go_skip.
Qed.

(** Where no match starts, the text is copied. *)
Lemma sub_go_copy i s :
  i <= length s ->
  (forall k, k < i -> Re.match_here true compiled (drop k s) = None) ->
  sub_go 0 s = take i s ++ sub_go 0 (drop i s).
Proof.
  revert s. induction i as [|i IH]; intros s Hi Hk; [reflexivity|].
  destruct s as [|c s]; [simpl in Hi; lia|].
  rewrite sub_go_None by exact (Hk 0 ltac:(lia)).
  simpl. f_equal. apply IH; [simpl in Hi; lia|].
  intros k Hlt. apply (Hk (S k)). lia.
Qed.

Lemma sub_go_id s :
  (forall k, Re.match_here true compiled (drop k s) = None) -> sub_go 0 s = s.
Proof.
  intros H. rewrite (sub_go_copy (length s) s) by auto.
  rewrite drop_all, sub_go_nil, take_ge, app_nil_r by lia. reflexivity.
Qed.

Lemma no_match_without_start s :
  startswith start_marker s = false -> Re.match_here true compiled s = None.
Proof. intros H. rewrite match_here_pattern, H. reflexivity. Qed.

(** The substitution removes the blocks that [scan] finds, and only
    them. *)
Lemma sub_go_scan fuel s :
  length s <= fuel ->
  sub_go 0 s = concat (map fst (fst (scan fuel s))) ++ snd (scan fuel s).
Proof.
  revert s. induction fuel as [|fuel IH]; intros s Hl.
  - destruct s; [reflexivity | simpl in Hl; lia].
  - cbn [scan]. destruct (find start_marker s) as [i|] eqn:FS.
    + pose proof FS as FS'. apply find_Some_iff in FS' as (Hi & Hs & Hk).
      destruct (find end_marker (drop (i + length start_marker) s))
        as [j|] eqn:FE.
      * rewrite (sub_go_copy i s Hi)
          by (intros k Hlt; apply no_match_without_start, Hk, Hlt).
        rewrite (sub_go_Some (drop i s)
                   (length start_marker + j + length end_marker)), drop_drop.
        2:{ rewrite match_here_pattern, Hs, drop_drop, FE. reflexivity. }
        rewrite IH.
        2:{ rewrite length_drop. change (length start_marker) with 25. lia. }
        destruct (scan fuel _) as [bs rest]. simpl.
        rewrite <- app_assoc. reflexivity.
      * simpl. apply sub_go_id. intros k.
        rewrite match_here_pattern.
        destruct (startswith start_marker (drop k s)) eqn:Hks; [|reflexivity].
        destruct (decide (k < i)) as [Hlt|Hge].
        { rewrite (Hk k Hlt) in Hks. discriminate. }
        rewrite drop_drop.
        replace (k + length start_marker)
          with (i + length start_marker + (k - i)) by lia.
        rewrite <- drop_drop, (find_None_drop _ _ _ FE). reflexivity.
    + simpl. apply sub_go_id. intros k. apply no_match_without_start.
      apply find_None_iff, FS.
Qed.

Lemma remove_existing_outside s : remove_existing s = Some (outside s).
Proof.
  unfold remove_existing, Re.sub. rewrite compile_pattern. simpl.
  f_equal. apply sub_go_scan. reflexivity.
Qed.

End ReFacts.

(** ** Blocks *)

Section ScanFacts.

Implicit Types (s a b body : list N).

Lemma find_start_nil : find start_marker [] = None.
Proof. reflexivity. Qed.

Lemma scan_nil fuel : scan fuel [] = ([], []).
Proof. destruct fuel; reflexivity. Qed.

Lemma scan_fuel f1 f2 s :
  length s <= f1 -> length s <= f2 -> scan f1 s = scan f2 s.
Proof.
  revert f2 s. induction f1 as [|f1 IH]; intros f2 s H1 H2.
  - destruct s; [|simpl in H1; lia]. rewrite !scan_nil. reflexivity.
  - destruct f2 as [|f2].
    { destruct s; [|simpl in H2; lia]. rewrite !scan_nil. reflexivity. }
    cbn [scan]. destruct (find start_marker s) as [i|]; [|reflexivity].
    destruct (find end_marker _) as [j|]; [|reflexivity].
    rewrite (IH f2); [reflexivity | |];
      rewrite length_drop; change (length start_marker) with 25; lia.
Qed.

(** [parse] unfolded once. *)
Lemma parse_eq s :
  parse s =
  match find start_marker s with
  | None => ([], s)
  | Some i =>
      match find end_marker (drop (i + length start_marker) s) with
      | None => ([], s)
      | Some j =>
          let n := length start_marker + j + length end_marker in
          ((take i s, take n (drop i s)) :: fst (parse (drop (i + n) s)),
           snd (parse (drop (i + n) s)))
      end
  end.
Proof.
  unfold parse. destruct s as [|c s]; [reflexivity|].
  cbn [length scan].
  destruct (find start_marker (c :: s)) as [i|]; [|reflexivity].
  destruct (find end_marker _) as [j|]; [|reflexivity].
  cbv zeta.
  rewrite (scan_fuel (length s) (length (drop (i + (length start_marker + j
             + length end_marker)) (c :: s)))); [| |reflexivity].
  - destruct (scan _ _). reflexivity.
  - rewrite length_drop. change (length start_marker) with 25. simpl. lia.
Qed.

Lemma parse_no_start s : find start_marker s = None -> parse s = ([], s).
Proof. intros H. rewrite parse_eq, H. reflexivity. Qed.

Lemma outside_no_start s : find start_marker s = None -> outside s = s.
Proof. intros H. unfold outside. rewrite (parse_no_start s H). reflexivity. Qed.

(** The parts of [parse] make up the text. *)
Lemma scan_unparse fuel s :
  unparse (fst (scan fuel s)) (snd (scan fuel s)) = s.
Proof.
  revert s. induction fuel as [|fuel IH]; intros s; [apply app_nil_l|].
  cbn [scan]. destruct (find start_marker s) as [i|]; [|reflexivity].
  destruct (find end_marker _) as [j|]; [|reflexivity].
  cbv zeta. specialize (IH (drop (i + (length start_marker + j
                                       + length end_marker)) s)).
  destruct (scan fuel _) as [bs rest]. unfold unparse in *. simpl in *.
  rewrite <- !app_assoc, IH, <- drop_drop, !take_drop. reflexivity.
Qed.

Lemma parse_unparse s : unparse (fst (parse s)) (snd (parse s)) = s.
Proof. apply scan_unparse. Qed.

(** An occurrence that lies in the first part of a text is an
    occurrence in that part. *)
Lemma find_app_inv pat a b i :
  find pat (a ++ b) = Some i -> i + length pat <= length a ->
  find pat a = Some i.
Proof.
  intros H Hl. apply find_Some_iff in H as (Hi & Hs & Hk).
  apply find_Some_iff. split; [lia|]. split.
  - rewrite drop_app_le in Hs by lia.
    rewrite startswith_app_long in Hs; [exact Hs|].
    rewrite length_drop. lia.
  - intros k Hlt. specialize (Hk k Hlt).
    rewrite drop_app_le in Hk by lia.
    rewrite startswith_app_long in Hk; [exact Hk|].
    rewrite length_drop. lia.
Qed.

Lemma take_block a mid b rest j :
  length mid = j ->
  take (length a + j + length b) (a ++ mid ++ b ++ rest) = a ++ mid ++ b.
Proof.
  intros <-. rewrite !(app_assoc _ _ rest), (app_assoc a mid b).
  rewrite <- (app_assoc a mid b).
  apply take_app_length'. rewrite !length_app. lia.
Qed.

(** Each block that [parse] finds is delimited. *)
Lemma scan_delimited fuel s : Forall delimited (map snd (fst (scan fuel s))).
Proof.
  revert s. induction fuel as [|fuel IH]; intros s; [constructor|].
  cbn [scan]. destruct (find start_marker s) as [i|] eqn:FS; [|constructor].
  destruct (find end_marker _) as [j|] eqn:FE; [|constructor].
  cbv zeta. specialize (IH (drop (i + (length start_marker + j
                                       + length end_marker)) s)).
  destruct (scan fuel _) as [bs rest]. cbn [fst snd map] in *.
  constructor; [|exact IH].
  apply find_Some_iff in FS as (_ & Hs & _). apply startswith_inv in Hs.
  rewrite drop_drop in Hs. pose proof (find_split _ _ _ FE) as Ht.
  pose proof (find_le _ _ _ FE) as Hle.
  remember (drop (i + length start_marker) s) as t eqn:Et.
  assert (Hj : length (take j t) = j) by (rewrite length_take; lia).
  exists (take j t). split.
  - rewrite Hs. rewrite Ht at 1. apply take_block, Hj.
  - rewrite Hj. apply (find_app_inv _ _ (drop (j + length end_marker) t)).
    + rewrite <- app_assoc, <- Ht. exact FE.
    + rewrite length_app, Hj. lia.
Qed.

Lemma parse_delimited s : Forall delimited (blocks s).
Proof. apply scan_delimited. Qed.

(** A text without a complete block. *)
Lemma count_blocks_0 s :
  count_blocks s = 0 <->
  find start_marker s = None
  \/ exists i, find start_marker s = Some i
               /\ find end_marker (drop (i + length start_marker) s) = None.
Proof.
  unfold count_blocks. rewrite parse_eq.
  destruct (find start_marker s) as [i|].
  - destruct (find end_marker _) as [j|] eqn:FE.
    + split; [discriminate|]. intros [[=]|(i' & [= <-] & H)]. congruence.
    + split; [|reflexivity]. intros _. right. eauto.
  - split; [|reflexivity]. intros _. left. reflexivity.
Qed.

Lemma count_blocks_0_app_l a b :
  count_blocks (a ++ b) = 0 -> count_blocks a = 0.
Proof.
  rewrite !count_blocks_0. intros H.
  destruct (find start_marker a) as [i|] eqn:FS; [|left; reflexivity].
  right. exists i. split; [reflexivity|].
  pose proof (find_le _ _ _ FS) as Hle.
  rewrite (find_app_l _ _ b _ FS) in H.
  destruct H as [[=]|(i' & [= <-] & H)].
  rewrite drop_app_le in H by lia. exact (find_None_app_l _ _ _ H).
Qed.

Lemma count_blocks_0_rstrip s : count_blocks s = 0 -> count_blocks (rstrip s) = 0.
Proof.
  destruct (rstrip_spec s) as (ws & Hs & _). intros H.
  rewrite Hs in H. exact (count_blocks_0_app_l _ _ H).
Qed.

End ScanFacts.

(** ** Texts with a known first block *)

Section BlockFacts.

Implicit Types (s a b pre mid post body : list N).

Lemma find_here pat b : find pat (pat ++ b) = Some 0.
Proof.
  apply find_Some_iff. split; [lia|]. split; [apply startswith_app | lia].
Qed.

Lemma find_self pat : find pat pat = Some 0.
Proof. rewrite <- (app_nil_r pat) at 2. apply find_here. Qed.

Lemma find_sep_cons pat c b :
  c ∉ pat -> find pat [] = None -> find pat (c :: b) = S <$> find pat b.
Proof.
  intros Hc H. pose proof (find_sep pat [] c b Hc H) as E.
  change ([] ++ c :: b) with (c :: b) in E.
  rewrite E. destruct (find pat b); reflexivity.
Qed.

Lemma drop_block a mid b rest j :
  length mid = j ->
  drop (length a + j + length b) (a ++ mid ++ b ++ rest) = rest.
Proof.
  intros <-. rewrite !(app_assoc _ _ rest), (app_assoc a mid b).
  rewrite <- (app_assoc a mid b).
  apply drop_app_length'. rewrite !length_app. lia.
Qed.

(** The first block of a text and the parse of what follows it. *)
Lemma parse_cons pre mid post :
  find start_marker (pre ++ start_marker) = Some (length pre) ->
  find end_marker (mid ++ end_marker) = Some (length mid) ->
  parse (pre ++ start_marker ++ mid ++ end_marker ++ post) =
  ((pre, start_marker ++ mid ++ end_marker) :: fst (parse post),
   snd (parse post)).
Proof.
  intros H1 H2. rewrite parse_eq, (find_first_app _ _ _ H1).
  rewrite (app_assoc pre start_marker), <- length_app, drop_app_length.
  rewrite (find_first_app _ _ _ H2). cbv zeta.
  rewrite <- (app_assoc pre start_marker), take_app_length.
  rewrite <- drop_drop, drop_app_length.
  rewrite take_block, drop_block by reflexivity. reflexivity.
Qed.

Lemma outside_cons pre mid post :
  find start_marker (pre ++ start_marker) = Some (length pre) ->
  find end_marker (mid ++ end_marker) = Some (length mid) ->
  outside (pre ++ start_marker ++ mid ++ end_marker ++ post)
  = pre ++ outside post.
Proof.
  intros H1 H2. unfold outside. rewrite (parse_cons _ _ _ H1 H2).
  simpl. rewrite <- app_assoc. reflexivity.
Qed.

Lemma nl_notin_start : 10%N ∉ start_marker.
Proof. compute_done. Qed.

Lemma nl_notin_end : 10%N ∉ end_marker.
Proof. compute_done. Qed.

(** The markers do not occur in the generated hook code. *)
Lemma markers_not_in_script ty body :
  get_shell_script ty = Some body ->
  find start_marker body = None /\ find end_marker body = None.
Proof.
  unfold get_shell_script.
  destruct (value_eqb ty (lit "zsh")); [|destruct (value_eqb ty (lit "bash"))];
    intros [= <-]; split; vm_compute; reflexivity.
Qed.

(** The block that [main] appends is found whole after a text without a
    start marker. *)
Lemma parse_appended a body :
  find start_marker a = None -> find end_marker body = None ->
  parse (a ++ nl ++ nl ++ start_marker ++ nl ++ body ++ nl ++ end_marker ++ nl)
  = ([(a ++ nl ++ nl, hook_block body)], nl).
Proof.
  intros Ha Hb.
  replace (a ++ nl ++ nl ++ start_marker ++ nl ++ body ++ nl ++ end_marker ++ nl)
    with ((a ++ nl ++ nl) ++ start_marker ++ (nl ++ body ++ nl)
          ++ end_marker ++ nl)
    by (rewrite <- !app_assoc; reflexivity).
  rewrite parse_cons.
  - unfold hook_block. rewrite <- !app_assoc. reflexivity.
  - rewrite <- !app_assoc. unfold nl. cbn [app].
    rewrite (find_sep _ _ _ _ nl_notin_start Ha).
    rewrite (find_sep_cons _ _ _ nl_notin_start find_start_nil).
    rewrite find_self. simpl.
    rewrite !length_app. simpl. f_equal. lia.
  - rewrite <- !app_assoc. unfold nl. cbn [app].
    rewrite (find_sep_cons _ _ _ nl_notin_end) by reflexivity.
    rewrite (find_sep _ _ _ _ nl_notin_end Hb).
    rewrite find_self. simpl.
    rewrite !length_app. simpl. f_equal. lia.
Qed.

(** After a text without a complete block, the appended end marker closes
    the only block of the new text. *)
Lemma count_blocks_appended a body :
  count_blocks a = 0 -> find end_marker body = None ->
  count_blocks
    (a ++ nl ++ nl ++ start_marker ++ nl ++ body ++ nl ++ end_marker ++ nl)
  = 1.
Proof.
  intros Ha Hb. apply count_blocks_0 in Ha as [Ha|(i & FS & FE)].
  { unfold count_blocks. rewrite (parse_appended _ _ Ha Hb). reflexivity. }
  pose proof (find_le _ _ _ FS) as Hle.
  pose proof (find_split _ _ _ FS) as Hsplit.
  set (a' := drop (i + length start_marker) a) in *.
  assert (Hi : length (take i a) = i) by (rewrite length_take; lia).
  rewrite Hsplit.
  replace ((take i a ++ start_marker ++ a') ++ nl ++ nl ++ start_marker ++ nl
           ++ body ++ nl ++ end_marker ++ nl)
    with (take i a ++ start_marker
          ++ (a' ++ nl ++ nl ++ start_marker ++ nl ++ body ++ nl)
          ++ end_marker ++ nl)
    by (rewrite <- !app_assoc; reflexivity).
  unfold count_blocks. rewrite parse_cons; [reflexivity| |].
  - rewrite Hi. apply (find_app_inv _ _ a').
    + rewrite <- app_assoc, <- Hsplit. exact FS.
    + rewrite length_app. lia.
  - rewrite <- !app_assoc. unfold nl. cbn [app].
    rewrite (find_sep _ _ _ _ nl_notin_end FE).
    rewrite (find_sep_cons _ _ _ nl_notin_end) by reflexivity.
    rewrite (find_sep _ start_marker _ _ nl_notin_end) by reflexivity.
    rewrite (find_sep _ _ _ _ nl_notin_end Hb).
    rewrite find_self. simpl.
    rewrite !length_app. simpl. rewrite !length_app. simpl. f_equal. lia.
Qed.

End BlockFacts.

(** ** Detection *)

Section DetectionFacts.

Implicit Types (w : World) (f : gmap (list N) (list N)) (p ty a b : list N).

Lemma join_suffix a b : exists x, OsPath.join a b = x ++ b.
Proof.
  unfold OsPath.join. destruct (startswith OsPath.sep b); [by exists []|].
  destruct a as [|c a]; [by exists []|].
  destruct (endswith OsPath.sep (c :: a)).
  - by exists (c :: a).
  - exists ((c :: a) ++ OsPath.sep). by rewrite <- app_assoc.
Qed.

Lemma join_last a b c : last b = Some c -> last (OsPath.join a b) = Some c.
Proof.
  intros H. destruct (join_suffix a b) as [x ->]. rewrite last_app, H.
  reflexivity.
Qed.

Lemma history_path_last w : last (history_path w) = Some 116%N.
Proof.
  unfold history_path, OsPath.expanduser.
  set (x := rstrip_char 47 (home w) ++ _).
  assert (E : last x = Some 116%N) by (unfold x; rewrite last_app; reflexivity).
  destruct x; [discriminate | exact E].
Qed.

(** What detection can return. *)
Lemma get_shell_config_cases w f :
  get_shell_config w f = (None, None)
  \/ exists p ty,
       get_shell_config w f = (Some p, Some ty)
       /\ (ty = lit "zsh" \/ ty = lit "bash")
       /\ (last p = Some 99%N \/ last p = Some 101%N).
Proof.
  unfold get_shell_config.
  destruct (contains (lit "zsh") _).
  { right. eexists _, _. split; [reflexivity|]. split; [by left|].
    left. by apply join_last. }
  destruct (contains (lit "bash") _); [|by left].
  destruct (path_exists f _).
  { right. eexists _, _. split; [reflexivity|]. split; [by right|].
    left. by apply join_last. }
  destruct (path_exists f _); [|by left].
  right. eexists _, _. split; [reflexivity|]. split; [by right|].
  right. by apply join_last.
Qed.

Lemma detected_inv w p ty :
  detected w p ty ->
  (ty = lit "zsh" \/ ty = lit "bash") /\ p <> [] /\ p <> history_path w.
Proof.
  unfold detected. intros H.
  destruct (get_shell_config_cases w (files w))
    as [E|(p' & ty' & E & Hty & Hp)]; rewrite E in H; [discriminate|].
  injection H as -> ->. split; [exact Hty|].
  pose proof (history_path_last w) as Hh.
  split; intros ->; destruct Hp as [Hp|Hp];
    solve [discriminate Hp | congruence].
Qed.

Lemma detected_script w p ty :
  detected w p ty ->
  exists body, get_shell_script (Some ty) = Some body
               /\ find start_marker body = None
               /\ find end_marker body = None.
Proof.
  intros H. apply detected_inv in H as ([-> | ->] & _); eexists;
    (split; [reflexivity|]); split; vm_compute; reflexivity.
Qed.

End DetectionFacts.

(** ** Line ends *)

Section LineFacts.

Implicit Types (s a b x y pat : list N) (c : N).

Lemma plain_start_marker : plain start_marker.
Proof. repeat constructor. Qed.

Lemma plain_end_marker : plain end_marker.
Proof. repeat constructor. Qed.

Lemma same_lines_universal_fuel n s :
  length s <= n -> same_lines s (universal_newlines s).
Proof.
  revert s. induction n as [|n IH]; intros s Hl.
  { destruct s; [constructor | simpl in Hl; lia]. }
  destruct s as [|c s]; [constructor|]. simpl in Hl.
  cbn [universal_newlines]. destruct (N.eqb_spec c 13) as [->|Hc].
  - destruct s as [|x s].
    + apply same_lines_nl; [reflexivity | reflexivity | constructor].
    + destruct (N.eqb_spec x 10) as [->|Hx].
      * apply same_lines_nl_l; [reflexivity | reflexivity|].
        apply same_lines_nl; [reflexivity | reflexivity|].
        apply IH. simpl in Hl. lia.
      * apply same_lines_nl; [reflexivity | reflexivity|].
        apply IH. simpl in *. lia.
  - destruct (is_newline c) eqn:E.
    + apply same_lines_nl; [exact E | exact E|]. apply IH. lia.
    + apply same_lines_char; [exact E|]. apply IH. lia.
Qed.

(** Reading keeps the lines of the stored text. *)
Lemma same_lines_universal s : same_lines s (universal_newlines s).
Proof. apply (same_lines_universal_fuel (length s)). reflexivity. Qed.

Lemma same_lines_refl s : same_lines s s.
Proof.
  induction s as [|c s IH]; [constructor|].
  destruct (is_newline c) eqn:E; [by apply same_lines_nl | by apply same_lines_char].
Qed.

Lemma same_lines_app a a' b b' :
  same_lines a a' -> same_lines b b' -> same_lines (a ++ b) (a' ++ b').
Proof.
  intros Ha Hb. induction Ha; simpl in *; [exact Hb| | | |];
    solve [by constructor
          |by apply same_lines_nl_l
          |by apply same_lines_nl_r].
Qed.

(** A text without line ends begins both texts or neither. *)
Lemma startswith_same_lines pat x y :
  plain pat -> same_lines x y -> startswith pat x = startswith pat y.
Proof.
  intros Hp Hxy. revert pat Hp.
  induction Hxy as [|c a b Hc _ IH|u v a b Hu Hv _ _|u v a b Hu Hv _ _
                   |u v a b Hu Hv _ _]; intros [|q pat] Hp;
    try reflexivity; apply Forall_cons_1 in Hp as [Hq Hp]; simpl.
  - rewrite (IH pat Hp). reflexivity.
  - destruct (N.eqb_spec q u) as [->|]; [congruence|].
    destruct (N.eqb_spec q v) as [->|]; [congruence | reflexivity].
  - destruct (N.eqb_spec q u) as [->|]; [congruence|].
    destruct (N.eqb_spec q v) as [->|]; [congruence | reflexivity].
  - destruct (N.eqb_spec q u) as [->|]; [congruence|].
    destruct (N.eqb_spec q v) as [->|]; [congruence | reflexivity].
Qed.

Lemma drop_same_lines pat x y :
  plain pat -> same_lines x y -> startswith pat x = true ->
  same_lines (drop (length pat) x) (drop (length pat) y).
Proof.
  intros Hp. revert x y. induction Hp as [|q pat Hq _ IH]; intros x y Hxy Hs.
  { rewrite !drop_0. exact Hxy. }
  destruct x as [|c x]; [discriminate|]. simpl in Hs.
  apply andb_true_iff in Hs as [Hqc Hs]. apply N.eqb_eq in Hqc as <-.
  inversion Hxy; subst; try congruence. simpl. apply IH; assumption.
Qed.

(** The first occurrences of a text without line ends correspond. *)
Lemma find_same_lines pat x y :
  plain pat -> find pat [] = None -> same_lines x y ->
  match find pat x, find pat y with
  | None, None => True
  | Some i, Some i' =>
      same_lines (take i x) (take i' y)
      /\ same_lines (drop (i + length pat) x) (drop (i' + length pat) y)
  | _, _ => False
  end.
Proof.
  intros Hp Hnil Hxy.
  assert (Hnl : forall u s, is_newline u = true -> startswith pat (u :: s) = false).
  { intros u s Hu. destruct Hp as [|q pat Hq _]; [discriminate Hnil|].
    simpl. destruct (N.eqb_spec q u) as [->|]; [congruence | reflexivity]. }
  induction Hxy as [|c a b Hc Hab IH|u v a b Hu Hv Hab IH
                   |u v a b Hu Hv Hab IH|u v a b Hu Hv Hab IH].
  - rewrite Hnil. exact I.
  - cbn [find].
    rewrite <- (startswith_same_lines pat (c :: a) (c :: b) Hp)
      by (by apply same_lines_char).
    destruct (startswith pat (c :: a)) eqn:Hs.
    + split; [constructor|]. apply drop_same_lines; [exact Hp | | exact Hs].
      by apply same_lines_char.
    + destruct (find pat a) as [i|], (find pat b) as [i'|]; simpl;
        try exact IH. destruct IH as [IH1 IH2].
      split; [by apply same_lines_char | exact IH2].
  - cbn [find]. rewrite !Hnl by assumption.
    destruct (find pat a) as [i|], (find pat b) as [i'|]; simpl;
      try exact IH. destruct IH as [IH1 IH2].
    split; [by apply same_lines_nl | exact IH2].
  - cbn [find] in *. rewrite !Hnl in * by assumption.
    destruct (find pat a) as [i|], (find pat b) as [i'|]; simpl in *;
      try exact IH. destruct IH as [IH1 IH2].
    split; [by apply same_lines_nl_l | exact IH2].
  - cbn [find] in *. rewrite !Hnl in * by assumption.
    destruct (find pat a) as [i|], (find pat b) as [i'|]; simpl in *;
      try exact IH. destruct IH as [IH1 IH2].
    split; [by apply same_lines_nl_r | exact IH2].
Qed.

Lemma find_end_nil : find end_marker [] = None.
Proof. reflexivity. Qed.

(** [outside] unfolded once. *)
Lemma outside_eq s :
  outside s =
  match find start_marker s with
  | None => s
  | Some i =>
      match find end_marker (drop (i + length start_marker) s) with
      | None => s
      | Some j =>
          take i s
          ++ outside (drop (i + (length start_marker + j + length end_marker)) s)
      end
  end.
Proof.
  unfold outside. rewrite parse_eq.
  destruct (find start_marker s) as [i|]; [|reflexivity].
  destruct (find end_marker _) as [j|]; [|reflexivity].
  cbn [fst snd map concat]. rewrite <- app_assoc. reflexivity.
Qed.

(** Texts with the same lines have the same lines outside their
    blocks. *)
Lemma outside_same_lines_fuel n x y :
  length x <= n -> same_lines x y -> same_lines (outside x) (outside y).
Proof.
  revert x y. induction n as [|n IH]; intros x y Hl Hxy.
  { destruct x; [|simpl in Hl; lia]. inversion Hxy. constructor. }
  rewrite (outside_eq x), (outside_eq y).
  pose proof (find_same_lines _ _ _ plain_start_marker find_start_nil Hxy) as HS.
  destruct (find start_marker x) as [i|] eqn:Fx,
           (find start_marker y) as [i'|]; try contradiction; [|exact Hxy].
  destruct HS as [Ht Hd].
  pose proof (find_same_lines _ _ _ plain_end_marker find_end_nil Hd) as HE.
  destruct (find end_marker (drop (i + length start_marker) x)) as [j|] eqn:Fe,
           (find end_marker (drop (i' + length start_marker) y)) as [j'|];
    try contradiction; [|exact Hxy].
  destruct HE as [_ Hd2]. rewrite !drop_drop in Hd2.
  apply same_lines_app; [exact Ht|]. apply IH.
  - rewrite length_drop. change (length start_marker) with 25. lia.
  - replace (i + (length start_marker + j + length end_marker))
      with (i + length start_marker + (j + length end_marker)) by lia.
    replace (i' + (length start_marker + j' + length end_marker))
      with (i' + length start_marker + (j' + length end_marker)) by lia.
    exact Hd2.
Qed.

Lemma outside_same_lines x y :
  same_lines x y -> same_lines (outside x) (outside y).
Proof. apply (outside_same_lines_fuel (length x)). reflexivity. Qed.

Lemma count_blocks_0_same_lines x y :
  same_lines x y -> count_blocks x = 0 -> count_blocks y = 0.
Proof.
  intros Hxy. rewrite !count_blocks_0.
  pose proof (find_same_lines _ _ _ plain_start_marker find_start_nil Hxy) as HS.
  destruct (find start_marker x) as [i|], (find start_marker y) as [i'|];
    try contradiction; [|by left].
  destruct HS as [_ Hd].
  pose proof (find_same_lines _ _ _ plain_end_marker find_end_nil Hd) as HE.
  intros [[=]|(k & [= <-] & Hk)]. right. exists i'. split; [reflexivity|].
  rewrite Hk in HE. destruct (find end_marker _); [contradiction | reflexivity].
Qed.

(** Reading neither makes nor breaks a start marker. *)
Lemma contains_start_universal s :
  contains start_marker (universal_newlines s) = contains start_marker s.
Proof.
  pose proof (find_same_lines _ _ _ plain_start_marker find_start_nil
                (same_lines_universal s)) as H.
  unfold contains.
  destruct (find start_marker s), (find start_marker (universal_newlines s));
    try contradiction; reflexivity.
Qed.

(** A text without carriage return is read as it is. *)
Lemma universal_newlines_id s :
  Forall (fun c => c <> 13%N) s -> universal_newlines s = s.
Proof.
  induction 1 as [|c s Hc _ IH]; [reflexivity|].
  cbn [universal_newlines]. destruct (N.eqb_spec c 13); [contradiction|].
  rewrite IH. reflexivity.
Qed.

End LineFacts.

(** ** The phases of [main] *)

Section PhaseFacts.

Variable w : World.

Implicit Types (st : State) (p ty content : list N).

Ltac unfold_m :=
  unfold mbind, M_bind, mret, M_ret, gets, raise, try_except, print, input,
    os_path_exists, os_remove, read_text, write_text, as_path,
    set_fs, log, emit in *;
  cbn.

Lemma reset_history_ok h st :
  faults w (OpRemove h) = None -> faults w (OpOpenW h) = None ->
  faults w (OpWrite h) = None ->
  reset_history w h st =
  ({| fs := <[h := []]> (fs st); stdout := stdout st;
      calls := calls st
               ++ (if path_exists (fs st) h then [CallRemove h] else [])
               ++ [CallOpenW h; CallWrite h []] |}, inr tt).
Proof.
  intros H1 H2 H3. unfold reset_history. unfold_m. unfold path_exists.
  destruct (fs st !! h) as [c|] eqn:E; rewrite ?H1, ?E, H2, H3; cbn.
  - rewrite insert_delete_eq, <- !app_assoc. reflexivity.
  - rewrite <- !app_assoc. reflexivity.
Qed.

Lemma read_config_ok p st :
  faults w (OpOpenR p) = None ->
  read_config w (Some p) st
  = ({| fs := fs st; stdout := stdout st; calls := calls st ++ [CallOpenR p] |},
     inr (universal_newlines (default [] (fs st !! p)))).
Proof.
  intros H. unfold read_config. unfold_m. rewrite H.
  destruct (fs st !! p); reflexivity.
Qed.

Lemma read_config_raises p st msg :
  faults w (OpOpenR p) = Some msg ->
  read_config w (Some p) st
  = ({| fs := fs st; stdout := stdout st; calls := calls st ++ [CallOpenR p] |},
     inl (OSError (OpOpenR p) msg)).
Proof. intros H. unfold read_config. unfold_m. rewrite H. reflexivity. Qed.

Lemma write_back_ok p (ty : option (list N)) content st :
  faults w (OpOpenW p) = None -> faults w (OpWrite p) = None ->
  write_back w (Some p) ty content st
  = (let new := new_content content (get_shell_script ty) in
     {| fs := <[p := new]> (fs st);
        stdout := stdout st ++ [success_msg (Some p); restart_msg];
        calls := calls st ++ [CallOpenW p; CallWrite p new] |}, inr tt).
Proof.
  intros H1 H2. unfold write_back. unfold_m. rewrite H1, H2. cbn.
  rewrite <- !app_assoc. reflexivity.
Qed.

Lemma write_back_open_fails p (ty : option (list N)) content st msg :
  faults w (OpOpenW p) = Some msg ->
  write_back w (Some p) ty content st
  = ({| fs := fs st;
        stdout := stdout st
                  ++ [error_msg (Some p) (OSError (OpOpenW p) msg); manual_msg];
        calls := calls st ++ [CallOpenW p] |}, inr tt).
Proof.
  intros H1. unfold write_back. unfold_m. rewrite H1. cbn.
  rewrite <- !app_assoc. reflexivity.
Qed.

Lemma write_back_write_fails p (ty : option (list N)) content st msg :
  faults w (OpOpenW p) = None -> faults w (OpWrite p) = Some msg ->
  write_back w (Some p) ty content st
  = (let new := new_content content (get_shell_script ty) in
     {| fs := <[p := take (short_write w p) new]> (fs st);
        stdout := stdout st
                  ++ [error_msg (Some p) (OSError (OpWrite p) msg); manual_msg];
        calls := calls st ++ [CallOpenW p; CallWrite p new] |}, inr tt).
Proof.
  intros H1 H2. unfold write_back. unfold_m. rewrite H1, H2. cbn.
  rewrite <- !app_assoc. reflexivity.
Qed.

Lemma patch_no_marker (cfg ty : option (list N)) content st :
  contains start_marker content = false ->
  patch w cfg ty content st = write_back w cfg ty content st.
Proof. intros H. unfold patch. rewrite H. reflexivity. Qed.

Lemma patch_declined (cfg ty : option (list N)) content st :
  contains start_marker content = true -> accepts w = false ->
  patch w cfg ty content st
  = ({| fs := fs st;
        stdout := stdout st ++ [reinstall_prompt; lit "Installation cancelled."];
        calls := calls st |}, inr tt).
Proof.
  unfold accepts. intros H1 H2. unfold patch. rewrite H1. unfold_m.
  rewrite H2. cbn. rewrite <- !app_assoc. reflexivity.
Qed.

Lemma patch_accepted (cfg ty : option (list N)) content st :
  contains start_marker content = true -> accepts w = true ->
  patch w cfg ty content st
  = write_back w cfg ty (outside content)
      {| fs := fs st; stdout := stdout st ++ [reinstall_prompt];
         calls := calls st |}.
Proof.
  unfold accepts. intros H1 H2. unfold patch. rewrite H1. unfold_m.
  rewrite H2, remove_existing_outside. reflexivity.
Qed.

(** The run when detection fails. *)
Lemma run_not_detected :
  get_shell_config w (files w) = (None, None) ->
  run w
  = ({| fs := files w;
        stdout := [lit "Starting installation...";
                   lit "Could not determine your shell configuration.";
                   manual_msg];
        calls := [] |}, inr tt).
Proof.
  intros H. unfold run, main, initial. unfold_m. cbn. rewrite H. reflexivity.
Qed.

(** The run after a successful detection and reset. *)
Lemma run_detected p ty :
  detected w p ty -> reset_ok w ->
  run w = (content ← read_config w (Some p);
           patch w (Some p) (Some ty) content) (after_reset w).
Proof.
  intros H (H1 & H2 & H3). pose proof (detected_inv _ _ _ H) as (Hty & Hp & _).
  unfold run, main, initial.
  unfold mbind at 1 2, M_bind at 1 2, print at 1, gets. cbn [emit fs].
  unfold detected in H. rewrite H.
  assert (E : negb (truthy (Some p)) || negb (truthy (Some ty)) = false).
  { destruct p; [done|]. by destruct Hty as [-> | ->]. }
  rewrite E. fold (history_path w).
  unfold mbind at 1, M_bind at 1.
  rewrite (reset_history_ok _ _ H1 H2 H3). reflexivity.
Qed.

Lemma write_back_frames p (ty : option (list N)) content :
  frames p (write_back w (Some p) ty content).
Proof.
  intros st. destruct (faults w (OpOpenW p)) as [msg|] eqn:H1.
  { rewrite (write_back_open_fails _ _ _ _ _ H1). cbn. split; [done|].
    eexists. split; [reflexivity|]. by repeat constructor. }
  destruct (faults w (OpWrite p)) as [msg|] eqn:H2.
  - rewrite (write_back_write_fails _ _ _ _ _ H1 H2). cbn. split.
    + intros q Hq. by rewrite lookup_insert_ne.
    + eexists. split; [reflexivity|]. by repeat constructor.
  - rewrite (write_back_ok _ _ _ _ H1 H2). cbn. split.
    + intros q Hq. by rewrite lookup_insert_ne.
    + eexists. split; [reflexivity|]. by repeat constructor.
Qed.

Lemma patch_frames p (ty : option (list N)) content :
  frames p (patch w (Some p) ty content).
Proof.
  intros st. destruct (contains start_marker content) eqn:H1.
  - destruct (accepts w) eqn:H2.
    + rewrite (patch_accepted _ _ _ _ H1 H2).
      exact (write_back_frames p ty (outside content)
               {| fs := fs st; stdout := stdout st ++ [reinstall_prompt];
                  calls := calls st |}).
    + rewrite (patch_declined _ _ _ _ H1 H2). cbn. split; [done|].
      exists []. by rewrite app_nil_r.
  - rewrite (patch_no_marker _ _ _ _ H1). apply write_back_frames.
Qed.

(** Reading and patching concern the configuration file only. *)
Lemma read_patch_frames p (ty : option (list N)) :
  frames p (content ← read_config w (Some p); patch w (Some p) ty content).
Proof.
  intros st. unfold mbind, M_bind.
  destruct (faults w (OpOpenR p)) as [msg|] eqn:H1.
  { rewrite (read_config_raises _ _ _ H1). cbn. split; [done|].
    eexists. split; [reflexivity|]. by repeat constructor. }
  rewrite (read_config_ok _ _ H1).
  destruct (patch_frames p ty (universal_newlines (default [] (fs st !! p)))
              {| fs := fs st; stdout := stdout st;
                 calls := calls st ++ [CallOpenR p] |})
    as (Hfs & l & Hl & Hall).
  cbn in *. split; [exact Hfs|].
  exists (CallOpenR p :: l). rewrite Hl, <- app_assoc.
  split; [reflexivity|]. by constructor.
Qed.

End PhaseFacts.

(** ** The run up to the write *)

Section RunFacts.

Variable w : World.

Implicit Types (p ty : list N).

Lemma run_reaches_write p ty :
  detected w p ty -> reset_ok w -> faults w (OpOpenR p) = None ->
  contains start_marker (old_content w p) = false \/ accepts w = true ->
  run w = write_back w (Some p) (Some ty) (outside (old_content w p))
            (before_write w p).
Proof.
  intros Hd Hr Hread Hcase.
  pose proof (detected_inv _ _ _ Hd) as (_ & _ & Hne).
  rewrite (run_detected _ _ _ Hd Hr).
  unfold mbind, M_bind. rewrite (read_config_ok _ _ _ Hread).
  cbn [after_reset fs]. rewrite lookup_insert_ne by congruence.
  fold (old_content w p). unfold before_write.
  destruct (contains start_marker (old_content w p)) eqn:Hm.
  - destruct Hcase as [|Hy]; [discriminate|].
    rewrite (patch_accepted _ _ _ _ _ Hm Hy). reflexivity.
  - rewrite (patch_no_marker _ _ _ _ _ Hm).
    rewrite outside_no_start by (apply contains_false, Hm). reflexivity.
Qed.

Lemma run_installs p ty body :
  detected w p ty -> (forall op, faults w op = None) ->
  contains start_marker (old_content w p) = false \/ accepts w = true ->
  get_shell_script (Some ty) = Some body ->
  installed w
  /\ fs (fst (run w)) !! p
     = Some (rstrip (outside (old_content w p)) ++ nl ++ nl
             ++ start_marker ++ nl ++ body ++ nl ++ end_marker ++ nl).
Proof.
  intros Hd Hf Hcase Hb. unfold installed.
  rewrite (run_reaches_write _ _ Hd) by (repeat split; auto).
  rewrite write_back_ok by auto. rewrite Hb. cbn.
  split; [split; [reflexivity|]|].
  - destruct (contains start_marker _); reflexivity.
  - apply lookup_insert_eq.
Qed.

End RunFacts.

(** ** The candidate statements on ordinary inputs *)

(** Each candidate statement holds on a plain input; the failures shown
    with the claims below come from the inputs, not from the wording. *)

Example bash_row_plain :
  bash_row bash_world {[ lit "/home/u/.bashrc" := [] ]}.
Proof. intros _ _. vm_compute. reflexivity. Qed.

Example single_block_after_install_plain :
  single_block_after_install (zsh_world (lit "export A=1" ++ nl ++ nl) []) zshrc.
Proof.
  intros _. eexists _, _, _, _.
  split; [vm_compute; reflexivity|]. split; vm_compute; reflexivity.
Qed.

Example only_first_span_removed_plain :
  only_first_span_removed (lit "a" ++ block_of (lit "old") ++ lit "b").
Proof.
  intros i j Hi Hj. vm_compute in Hi. injection Hi as <-.
  vm_compute in Hj. injection Hj as <-. vm_compute. reflexivity.
Qed.

Example no_partial_block_left_plain : no_partial_block_left disk_full_world zshrc.
Proof.
  split; [vm_compute; reflexivity|].
  intros text i Hfs Hf. vm_compute in Hfs. injection Hfs as <-.
  discriminate Hf.
Qed.

Example one_block_after_reinstall_plain :
  one_block_after_reinstall (zsh_world two_blocks (lit "y")) zshrc.
Proof.
  intros content Hc _ _ _. eexists.
  split; vm_compute; reflexivity.
Qed.

(** * The claims *)

(** C5. When shell detection fails, the run prints the guidance message
    and the link to the manual instructions and ends normally; it makes
    no call on any file, so the transcript and the startup files are
    neither created, deleted, truncated nor written. *)
Theorem detection_failure_touches_nothing (w : World) :
  get_shell_config w (files w) = (None, None) ->
  run w
  = ({| fs := files w;
        stdout := [lit "Starting installation...";
                   lit "Could not determine your shell configuration.";
                   manual_msg];
        calls := [] |}, inr tt)
  /\ contains (lit "docs.openinterpreter.com/shell") manual_msg = true.
Proof.
  intros H. split; [apply run_not_detected, H | reflexivity].
Qed.

Lemma detection_failure_touches_nothing_witness :
  fs (fst (run fish_world)) = files fish_world
  /\ calls (fst (run fish_world)) = [].
Proof.
  destruct (detection_failure_touches_nothing fish_world) as [E _].
  - vm_compute. reflexivity.
  - rewrite E. split; reflexivity.
Defined.



(** C7. The two scripts are the same text up to and including the line
    break after [base_script] and differ from the next character on.
    The zsh script ends with the definition of [preexec], which calls
    [capture_output] on its first argument; the bash script ends with
    the DEBUG trap, which calls [capture_output] on the last history
    entry, its number removed by sed. *)
Theorem scripts_differ_in_suffix :
  exists zsh_rest bash_rest,
    get_shell_script (Some (lit "zsh"))
    = Some ((base_script ++ nl) ++ zsh_rest)
    /\ get_shell_script (Some (lit "bash"))
       = Some ((base_script ++ nl) ++ bash_rest)
    /\ head zsh_rest <> head bash_rest
    /\ zsh_rest
       = lit "preexec() {" ++ nl ++ lit "    capture_output " ++ dq
         ++ lit "$1" ++ dq ++ nl ++ lit "}" ++ nl
    /\ bash_rest
       = lit "trap 'capture_output " ++ dq
         ++ lit "$(HISTTIMEFORMAT= history 1 | sed " ++ dq
         ++ lit "s/^[ ]*[0-9]*[ ]*//" ++ dq ++ lit ")" ++ dq
         ++ lit " ' DEBUG" ++ nl.
Proof.
  eexists _, _. split; [|split; [|split; [|split; reflexivity]]].
  - vm_compute. reflexivity.
  - vm_compute. reflexivity.
  - vm_compute. discriminate.
Qed.

(** C3, as amended.  Let [shell] be the value of SHELL in lower case
    (the empty text when SHELL is not set).  If [shell] contains zsh,
    detection returns [~/.zshrc] and zsh, whatever files exist.  If it
    contains bash and not zsh: [~/.bashrc] and bash when that file
    exists; [~/.bash_profile] and bash when only that one exists.  In
    every other case, and for bash with neither file, it returns
    [(None, None)].  The paths are [os.path.join] of the home directory
    and the file name, that is [<home>/<name>] for a home directory that
    does not end in a slash. *)
Theorem detection_matrix (w : World) (f : gmap (list N) (list N)) :
  let shell := lower (default [] (environ_SHELL w)) in
  let zshrc := OsPath.join (home w) (lit ".zshrc") in
  let bash_rc := OsPath.join (home w) (lit ".bashrc") in
  let bash_profile := OsPath.join (home w) (lit ".bash_profile") in
  (contains (lit "zsh") shell = true ->
   get_shell_config w f = (Some zshrc, Some (lit "zsh")))
  /\ (contains (lit "zsh") shell = false ->
      contains (lit "bash") shell = true ->
      path_exists f bash_rc = true ->
      get_shell_config w f = (Some bash_rc, Some (lit "bash")))
  /\ (contains (lit "zsh") shell = false ->
      contains (lit "bash") shell = true ->
      path_exists f bash_rc = false -> path_exists f bash_profile = true ->
      get_shell_config w f = (Some bash_profile, Some (lit "bash")))
  /\ (contains (lit "zsh") shell = false ->
      contains (lit "bash") shell = false
      \/ (path_exists f bash_rc = false /\ path_exists f bash_profile = false) ->
      get_shell_config w f = (None, None))
  /\ (forall name,
        home w <> [] -> endswith OsPath.sep (home w) = false ->
        startswith OsPath.sep name = false ->
        OsPath.join (home w) name = home w ++ lit "/" ++ name).
Proof.
  cbv zeta. unfold get_shell_config.
  split; [|split; [|split; [|split]]].
  - intros ->. reflexivity.
  - intros -> -> ->. reflexivity.
  - intros -> -> -> ->. reflexivity.
  - intros -> [-> | [-> ->]]; [reflexivity|].
    destruct (contains (lit "bash") _); reflexivity.
  - intros name Hh He Hn. unfold OsPath.join. rewrite Hn, He.
    destruct (home w); [done | reflexivity].
Qed.

Lemma detection_matrix_witness :
  get_shell_config bash_world (files bash_world)
  = (Some (lit "/home/u/.bash_profile"), Some (lit "bash")).
Proof.
  destruct (detection_matrix bash_world (files bash_world))
    as (_ & _ & H & _ & Hj).
  rewrite H by (vm_compute; reflexivity).
  rewrite Hj by (vm_compute; (reflexivity || discriminate)).
  reflexivity.
Defined.

(** C3 as stated fails: with SHELL=/home/bashir/bin/zsh the value
    contains bash and [~/.bashrc] exists, and detection returns
    [~/.zshrc] and zsh. *)
Lemma bash_row_fails : ~ bash_row bashir_world (files bashir_world).
Proof.
  unfold bash_row. intros H.
  specialize (H ltac:(vm_compute; reflexivity) ltac:(vm_compute; reflexivity)).
  vm_compute in H. discriminate H.
Qed.

(** C4. After a successful detection, and provided the operating system
    lets the reset go through, the transcript file exists and is empty
    at the end of the run, whatever it held before and however the run
    ends (read error, cancellation, write error, success).  The reset
    comes first: no call made before the empty text is written concerns
    the configuration file, and no call made after it concerns the
    transcript. *)
Theorem transcript_reset_first (w : World) (p ty : list N) :
  detected w p ty -> reset_ok w ->
  fs (fst (run w)) !! history_path w = Some []
  /\ exists before after,
       calls (fst (run w))
       = before ++ CallWrite (history_path w) [] :: after
       /\ Forall (fun c => ~ touches p c) before
       /\ Forall (fun c => ~ touches (history_path w) c) after.
Proof.
  intros Hd Hr. pose proof (detected_inv _ _ _ Hd) as (_ & _ & Hne).
  rewrite (run_detected _ _ _ Hd Hr).
  destruct (read_patch_frames w p (Some ty) (after_reset w))
    as (Hfs & l & Hl & Hall).
  split.
  - rewrite Hfs by congruence. apply lookup_insert_eq.
  - rewrite Hl. cbn [after_reset calls].
    exists ((if path_exists (files w) (history_path w)
             then [CallRemove (history_path w)] else [])
            ++ [CallOpenW (history_path w)]), l.
    split; [rewrite <- !app_assoc; reflexivity|]. split.
    + destruct (path_exists _ _); repeat constructor; simpl; congruence.
    + eapply Forall_impl; [exact Hall|].
      intros c Hc Hc'. destruct c; simpl in *; congruence.
Qed.

Lemma transcript_reset_first_witness :
  fs (fst (run (zsh_world (block_of (lit "old")) (lit "n"))))
    !! lit "/home/u/.shell_history_with_output" = Some [].
Proof.
  destruct (transcript_reset_first (zsh_world (block_of (lit "old")) (lit "n"))
              zshrc (lit "zsh")) as [H _].
  - vm_compute. reflexivity.
  - repeat split.
  - exact H.
Defined.

(** C2. When the configuration file contains the start marker and the
    answer to the prompt is not y, the run ends normally with the
    message "Installation cancelled.", the file holds the same text as
    before, and no call that changes a file was made on it. *)
Theorem declined_leaves_file (w : World) (p ty content : list N) :
  detected w p ty -> reset_ok w -> faults w (OpOpenR p) = None ->
  files w !! p = Some content ->
  contains start_marker content = true ->
  accepts w = false ->
  cancelled w
  /\ fs (fst (run w)) !! p = Some content
  /\ Forall (fun c => touches p c -> ~ mutates c) (calls (fst (run w))).
Proof.
  intros Hd Hr Hread Hfile Hmark Hno.
  pose proof (detected_inv _ _ _ Hd) as (_ & _ & Hne).
  assert (Hmark' : contains start_marker (universal_newlines content) = true)
    by (rewrite contains_start_universal; exact Hmark).
  unfold cancelled. rewrite (run_detected _ _ _ Hd Hr).
  unfold mbind, M_bind. rewrite (read_config_ok _ _ _ Hread).
  cbn [after_reset fs].
  rewrite lookup_insert_ne, Hfile by congruence.
  change (default [] (Some content)) with content.
  rewrite (patch_declined _ _ _ _ _ Hmark' Hno). cbn.
  split; [split; reflexivity|].
  split; [rewrite lookup_insert_ne by congruence; exact Hfile|].
  destruct (path_exists _ _); repeat constructor; simpl; try congruence; tauto.
Qed.

Lemma declined_leaves_file_witness :
  fs (fst (run (zsh_world (block_of (lit "old")) (lit "n")))) !! zshrc
  = Some (block_of (lit "old")).
Proof.
  destruct (declined_leaves_file (zsh_world (block_of (lit "old")) (lit "n"))
              zshrc (lit "zsh") (block_of (lit "old"))) as (_ & H & _).
  - vm_compute. reflexivity.
  - repeat split.
  - reflexivity.
  - vm_compute. reflexivity.
  - vm_compute. reflexivity.
  - vm_compute. reflexivity.
  - exact H.
Defined.

(** C1, as amended.  The old text is the stored text as [main] reads
    it, with every CR LF and every lone CR turned into LF; it is the
    stored text itself when that holds no CR.  After a successful
    install, either with no start marker in the file before, or with
    one, the reinstall accepted and no start marker left in the text
    once the old blocks are taken out: the file is that text without its
    trailing whitespace, two line breaks, the new block and a line
    break; the new block is the only block of the file; the text before
    it is the old text outside the blocks (the whole old text when there
    was no marker), up to the whitespace at its end. *)
Theorem install_single_block (w : World) (p ty : list N) :
  detected w p ty -> (forall op, faults w op = None) ->
  contains start_marker (old_content w p) = false
  \/ (accepts w = true
      /\ find start_marker (outside (old_content w p)) = None) ->
  let rest := outside (old_content w p) in
  exists body ws,
    get_shell_script (Some ty) = Some body
    /\ installed w
    /\ fs (fst (run w)) !! p
       = Some (rstrip rest ++ nl ++ nl ++ hook_block body ++ nl)
    /\ parse (rstrip rest ++ nl ++ nl ++ hook_block body ++ nl)
       = ([(rstrip rest ++ nl ++ nl, hook_block body)], nl)
    /\ rest = rstrip rest ++ ws
    /\ Forall (fun c => isspace c = true) ws
    /\ (forall c, last (rstrip rest) = Some c -> isspace c = false)
    /\ (contains start_marker (old_content w p) = false ->
        rest = old_content w p)
    /\ old_content w p = universal_newlines (stored_content w p)
    /\ same_lines (stored_content w p) (old_content w p)
    /\ (Forall (fun c => c <> 13%N) (stored_content w p) ->
        old_content w p = stored_content w p).
Proof.
  intros Hd Hf Hcase rest.
  destruct (detected_script _ _ _ Hd) as (body & Hb & _ & HE).
  destruct (rstrip_spec rest) as (ws & Hws & Hall).
  assert (Hrest : find start_marker rest = None).
  { destruct Hcase as [Hm|[_ H]]; [|exact H].
    apply contains_false in Hm. unfold rest. by rewrite outside_no_start. }
  assert (Hcase' : contains start_marker (old_content w p) = false
                   \/ accepts w = true) by tauto.
  destruct (run_installs w p ty body Hd Hf Hcase' Hb) as [Hi Hfs].
  assert (Hassoc : forall a, a ++ nl ++ nl ++ hook_block body ++ nl
                   = a ++ nl ++ nl ++ start_marker ++ nl ++ body ++ nl
                     ++ end_marker ++ nl).
  { intros a. unfold hook_block. rewrite <- !app_assoc. reflexivity. }
  exists body, ws. split; [exact Hb|]. split; [exact Hi|].
  split; [rewrite Hassoc; exact Hfs|].
  split; [rewrite Hassoc; apply parse_appended;
          [apply rstrip_find_None, Hrest | exact HE]|].
  split; [exact Hws|]. split; [exact Hall|].
  split; [intros c; apply rstrip_last|].
  split; [intros Hm; apply outside_no_start, contains_false, Hm|].
  split; [reflexivity|]. split; [apply same_lines_universal|].
  apply universal_newlines_id.
Qed.

Lemma install_single_block_witness :
  exists new,
    fs (fst (run (zsh_world (lit "export A=1" ++ nl ++ nl) []))) !! zshrc
    = Some new
    /\ count_blocks new = 1.
Proof.
  destruct (install_single_block (zsh_world (lit "export A=1" ++ nl ++ nl) [])
              zshrc (lit "zsh")) as (body & ws & _ & _ & Hfs & Hp & _).
  - vm_compute. reflexivity.
  - reflexivity.
  - left. vm_compute. reflexivity.
  - eexists. split; [exact Hfs|]. unfold count_blocks. rewrite Hp. reflexivity.
Defined.

(** C1 as stated fails, in two ways.  Reinstalling over [spliced]
    succeeds and leaves two blocks, the one that the removal put
    together and the new one.  Installing into a file with CR LF line
    ends leaves one block, and the text before it has LF line ends: it
    is not the text stored before. *)
Lemma single_block_after_install_fails :
  ~ single_block_after_install (zsh_world spliced (lit "y")) zshrc
  /\ ~ single_block_after_install (zsh_world crlf_text []) zshrc.
Proof.
  unfold single_block_after_install. split; intros H.
  - destruct H as (new & pre & blk & post & Hfs & Hp & _).
    { split; vm_compute; reflexivity. }
    vm_compute in Hfs. injection Hfs as <-.
    vm_compute in Hp. discriminate Hp.
  - destruct H as (new & pre & blk & post & Hfs & Hp & Hr).
    { split; vm_compute; reflexivity. }
    vm_compute in Hfs. injection Hfs as <-.
    vm_compute in Hp. injection Hp as <- <- <-.
    vm_compute in Hr. discriminate Hr.
Qed.

(** C10, as amended.  When the file holds two blocks or more, the
    reinstall is accepted and the run succeeds, the removal deletes
    every block that [parse] finds, each of them a start marker, a text
    and the first end marker after it, and keeps the text between and
    around them.  If the text so kept holds no complete block, the new
    file holds exactly one. *)
Theorem reinstall_removes_all_blocks (w : World) (p ty content : list N) :
  detected w p ty -> (forall op, faults w op = None) ->
  files w !! p = Some content -> 2 <= count_blocks content ->
  accepts w = true ->
  count_blocks (outside content) = 0 ->
  remove_existing content
  = Some (concat (map fst (fst (parse content))) ++ snd (parse content))
  /\ unparse (fst (parse content)) (snd (parse content)) = content
  /\ Forall delimited (blocks content)
  /\ installed w
  /\ exists new,
       fs (fst (run w)) !! p = Some new /\ count_blocks new = 1.
Proof.
  intros Hd Hf Hfile Hcount Hy Hout.
  destruct (detected_script _ _ _ Hd) as (body & Hb & _ & HE).
  split; [apply remove_existing_outside|].
  split; [apply parse_unparse|]. split; [apply parse_delimited|].
  destruct (run_installs w p ty body Hd Hf (or_intror Hy) Hb) as [Hi Hfs].
  split; [exact Hi|]. eexists. split; [exact Hfs|].
  unfold old_content, stored_content. rewrite Hfile.
  change (default [] (Some content)) with content.
  apply count_blocks_appended; [|exact HE].
  apply count_blocks_0_rstrip.
  apply (count_blocks_0_same_lines (outside content)); [|exact Hout].
  apply outside_same_lines, same_lines_universal.
Qed.

Lemma reinstall_removes_all_blocks_witness :
  remove_existing two_blocks
  = Some (lit "export A=1" ++ nl ++ nl ++ lit "alias l=ls" ++ nl ++ nl ++ nl).
Proof.
  destruct (reinstall_removes_all_blocks (zsh_world two_blocks (lit "Y"))
              zshrc (lit "zsh") two_blocks) as (H & _).
  - vm_compute. reflexivity.
  - reflexivity.
  - reflexivity.
  - vm_compute. lia.
  - vm_compute. reflexivity.
  - vm_compute. reflexivity.
  - rewrite H. vm_compute. reflexivity.
Defined.

(** C10 as stated fails: [block_of "a" ++ spliced] holds two blocks;
    once they are removed the text left is a complete block, and the
    new file holds two. *)
Lemma one_block_after_reinstall_fails :
  ~ one_block_after_reinstall
      (zsh_world (block_of (lit "a") ++ spliced) (lit "y")) zshrc.
Proof.
  unfold one_block_after_reinstall. intros H.
  destruct (H (block_of (lit "a") ++ spliced)) as (new & Hfs & Hc).
  - reflexivity.
  - vm_compute. lia.
  - vm_compute. reflexivity.
  - split; vm_compute; reflexivity.
  - vm_compute in Hfs. injection Hfs as <-.
    vm_compute in Hc. discriminate Hc.
Qed.

(** C6, as amended.  Let the text be [pre], the first start marker, [mid],
    the first end marker after it, and [post].  With the reinstall
    accepted, the removal deletes that span and keeps [pre]; [post] is
    kept as it is when it holds no start marker, and otherwise loses its
    own blocks in the same way.  When no end marker follows the first
    start marker, nothing is deleted. *)
Theorem removal_first_span (w : World) (cfg ty : option (list N))
    (pre mid post : list N) (st : State) :
  find start_marker (pre ++ start_marker) = Some (length pre) ->
  find end_marker (mid ++ end_marker) = Some (length mid) ->
  accepts w = true ->
  let content := pre ++ start_marker ++ mid ++ end_marker ++ post in
  remove_existing content = Some (pre ++ outside post)
  /\ (find start_marker post = None ->
      remove_existing content = Some (pre ++ post))
  /\ patch w cfg ty content st
     = write_back w cfg ty (pre ++ outside post)
         {| fs := fs st; stdout := stdout st ++ [reinstall_prompt];
            calls := calls st |}
  /\ (forall rest,
        find end_marker rest = None ->
        remove_existing (pre ++ start_marker ++ rest)
        = Some (pre ++ start_marker ++ rest)).
Proof.
  intros H1 H2 Hy content.
  assert (E : remove_existing content = Some (pre ++ outside post)).
  { unfold content. rewrite remove_existing_outside, outside_cons; auto. }
  split; [exact E|]. split; [|split].
  - intros Hp. rewrite E, (outside_no_start _ Hp). reflexivity.
  - rewrite patch_accepted; [|apply contains_true; exists (length pre);
      apply find_first_app, H1 | exact Hy].
    unfold content. rewrite outside_cons by auto. reflexivity.
  - intros rest Hr. rewrite remove_existing_outside. f_equal.
    unfold outside. rewrite parse_eq, (find_first_app _ _ _ H1).
    rewrite (app_assoc pre start_marker), <- length_app, drop_app_length, Hr.
    reflexivity.
Qed.

Lemma removal_first_span_witness :
  remove_existing
    ((lit "export A=1" ++ nl) ++ start_marker ++ lit "old" ++ end_marker
     ++ lit "alias l=ls")
  = Some ((lit "export A=1" ++ nl) ++ lit "alias l=ls").
Proof.
  destruct (removal_first_span (zsh_world [] (lit "y")) None None
              (lit "export A=1" ++ nl) (lit "old") (lit "alias l=ls")
              (initial (zsh_world [] (lit "y")))) as (_ & H & _).
  - vm_compute. reflexivity.
  - vm_compute. reflexivity.
  - vm_compute. reflexivity.
  - apply H. vm_compute. reflexivity.
Defined.

(** C6 as stated fails: with two blocks in the file the removal deletes
    both, not only the span that ends at the first end marker. *)
Lemma only_first_span_removed_fails :
  ~ only_first_span_removed
      (block_of (lit "a") ++ lit "keep" ++ block_of (lit "b")).
Proof.
  unfold only_first_span_removed. intros H.
  specialize (H 0 1 ltac:(vm_compute; reflexivity)
                ltac:(vm_compute; reflexivity)).
  vm_compute in H. discriminate H.
Qed.

(** C8, as amended.  When the write of the new text fails, at the
    opening of the file or in the [write] call, the run ends normally
    and its last two messages are "Error writing to <path>: <cause>" and
    the pointer to the manual instructions.  The program asks for one
    write at most, with the whole new text, which ends with the complete
    block.  The file is left as it was when the opening failed; when the
    write call failed, after the opening truncated the file, it holds
    the beginning of the new text that was stored before the failure,
    which may be empty and may stop inside the block. *)
Theorem write_failure_reported (w : World) (p ty msg : list N) :
  detected w p ty -> reset_ok w -> faults w (OpOpenR p) = None ->
  contains start_marker (old_content w p) = false \/ accepts w = true ->
  faults w (OpOpenW p) = Some msg
  \/ (faults w (OpOpenW p) = None /\ faults w (OpWrite p) = Some msg) ->
  exists body out attempt,
    get_shell_script (Some ty) = Some body
    /\ snd (run w) = inr tt
    /\ stdout (fst (run w))
       = out ++ [lit "Error writing to " ++ p ++ lit ": " ++ msg; manual_msg]
    /\ calls (fst (run w))
       = calls (before_write w p) ++ CallOpenW p :: attempt
    /\ Forall (fun c => touches p c -> ~ mutates c) (calls (before_write w p))
    /\ let new := rstrip (outside (old_content w p)) ++ nl ++ nl
                  ++ hook_block body ++ nl in
       (attempt = [] /\ fs (fst (run w)) !! p = files w !! p)
       \/ (attempt = [CallWrite p new]
           /\ fs (fst (run w)) !! p = Some (take (short_write w p) new)).
Proof.
  intros Hd Hr Hread Hcase Hfail.
  pose proof (detected_inv _ _ _ Hd) as (_ & _ & Hne).
  destruct (detected_script _ _ _ Hd) as (body & Hb & _).
  rewrite (run_reaches_write _ _ _ Hd Hr Hread Hcase).
  assert (Hbefore : Forall (fun c => touches p c -> ~ mutates c)
                      (calls (before_write w p))).
  { cbn. destruct (path_exists _ _); repeat constructor; simpl;
      try congruence; tauto. }
  assert (Hnew : new_content (outside (old_content w p)) (Some body)
                 = rstrip (outside (old_content w p)) ++ nl ++ nl
                   ++ hook_block body ++ nl).
  { unfold new_content, hook_block, format. rewrite <- !app_assoc.
    reflexivity. }
  exists body, (stdout (before_write w p)).
  destruct Hfail as [Ho|[Ho Hw]].
  - exists []. rewrite (write_back_open_fails _ _ _ _ _ _ Ho).
    cbn [fst snd fs stdout calls]. repeat (split; [done|]).
    left. split; [reflexivity|]. cbn. by rewrite lookup_insert_ne.
  - eexists. rewrite (write_back_write_fails _ _ _ _ _ _ Ho Hw), Hb.
    cbn [fst snd fs stdout calls]. repeat (split; [done|]).
    right. rewrite Hnew. split; [reflexivity | apply lookup_insert_eq].
Qed.

Lemma write_failure_reported_witness :
  snd (run disk_full_world) = inr tt
  /\ fs (fst (run disk_full_world)) !! zshrc = Some [].
Proof.
  destruct (write_failure_reported disk_full_world zshrc (lit "zsh")
              (lit "[Errno 28] No space left on device"))
    as (body & out & attempt & _ & Hr & _ & _ & _ & Hfs).
  - vm_compute. reflexivity.
  - repeat split.
  - reflexivity.
  - left. vm_compute. reflexivity.
  - right. split; vm_compute; reflexivity.
  - split; [exact Hr|]. destruct Hfs as [[_ Hfs]|[_ Hfs]].
    + rewrite Hfs. vm_compute. discriminate.
    + rewrite Hfs. change (short_write disk_full_world zshrc) with 0.
      rewrite take_0. reflexivity.
Defined.

(** C8 as stated fails: when the write stops after a hundred characters,
    the file is left with the old text, the start marker and the
    beginning of the script, and no end marker. *)
Lemma no_partial_block_left_fails :
  ~ no_partial_block_left file_limit_world zshrc.
Proof.
  intros [_ H].
  eapply H; [vm_compute; reflexivity | vm_compute; reflexivity
            | vm_compute; reflexivity].
Qed.

(** * Further properties of the installer *)

(** ** Auxiliary facts *)

Section MoreFacts.

Implicit Types (s a b ws : list N) (c : N).

Lemma rstrip_spaces ws :
  Forall (fun c => isspace c = true) ws -> rstrip ws = [].
Proof.
  induction 1 as [|c ws Hc _ IH]; [reflexivity|].
  simpl. rewrite IH, Hc. reflexivity.
Qed.

Lemma rstrip_app_spaces a ws :
  Forall (fun c => isspace c = true) ws -> rstrip (a ++ ws) = rstrip a.
Proof.
  intros H. induction a as [|x a IH]; [apply rstrip_spaces, H|].
  simpl. rewrite IH. reflexivity.
Qed.

Lemma rstrip_idem a : rstrip (rstrip a) = rstrip a.
Proof.
  destruct (rstrip_spec a) as (ws & Hs & Hws).
  rewrite Hs at 2. symmetry. apply rstrip_app_spaces, Hws.
Qed.

Lemma lower_char_y c : lower_char c = 121%N <-> c = 121%N \/ c = 89%N.
Proof.
  unfold lower_char.
  destruct (N.leb_spec 65 c); destruct (N.leb_spec c 90); simpl; lia.
Qed.

Lemma lower_is_y s : eqb (lower s) (lit "y") = true <-> s = lit "y" \/ s = lit "Y".
Proof.
  rewrite eqb_eq. destruct s as [|c [|d s]]; try (split; [discriminate|]).
  - intros [H|H]; discriminate H.
  - change (lower [c]) with [lower_char c]. change (lit "y") with [121%N].
    change (lit "Y") with [89%N]. split.
    + intros [= H]. apply lower_char_y in H as [-> | ->]; auto.
    + intros [[= ->]|[= ->]]; reflexivity.
  - intros [H|H]; discriminate H.
Qed.

(** The lengths of the parts of a text. *)
Lemma unparse_length (bs : list (list N * list N)) rest :
  length (unparse bs rest)
  = length (concat (map fst bs) ++ rest) + length (concat (map snd bs)).
Proof.
  unfold unparse. induction bs as [|[t b] bs IH]; simpl; [lia|].
  rewrite !length_app in *. lia.
Qed.

Lemma delimited_length b : delimited b -> 0 < length b.
Proof.
  intros (mid & -> & _). rewrite length_app.
  change (length start_marker) with 25. lia.
Qed.

End MoreFacts.

Section MorePhaseFacts.

Variable w : World.

Implicit Types (st : State) (p ty h : list N).

Ltac unfold_r :=
  unfold mbind, M_bind, mret, M_ret, gets, raise, try_except, print, input,
    os_path_exists, os_remove, read_text, write_text, as_path,
    set_fs, log, emit in *;
  cbn.

(** The reset concerns the transcript only, however it ends. *)
Lemma reset_history_frames h : frames h (reset_history w h).
Proof.
  intros st. unfold reset_history. unfold_r. unfold path_exists.
  destruct (fs st !! h) as [c|] eqn:E; rewrite ?E;
    destruct (faults w (OpRemove h)); destruct (faults w (OpOpenW h));
    destruct (faults w (OpWrite h)); cbn; rewrite <- ?app_assoc;
    (split;
     [intros q Hq; rewrite ?lookup_insert_ne, ?lookup_delete_ne by congruence;
      reflexivity
     |eexists; split; [try reflexivity|]]);
    try (by repeat constructor);
    try (instantiate (1 := []); [by rewrite app_nil_r | constructor]).
Qed.

Lemma bind_unfold {A B : Type} (m : M A) (k : A -> M B) st :
  (m ≫= k) st
  = match m st with
    | (st', inl e) => (st', inl e)
    | (st', inr x) => k x st'
    end.
Proof. reflexivity. Qed.

(** The run after a successful detection. *)
Lemma run_detected_any p ty :
  detected w p ty ->
  run w
  = (reset_history w (history_path w);;
     content ← read_config w (Some p);
     patch w (Some p) (Some ty) content)
      {| fs := files w; stdout := [lit "Starting installation..."];
         calls := [] |}.
Proof.
  intros H. pose proof (detected_inv _ _ _ H) as (Hty & Hp & _).
  unfold run, main, initial.
  unfold mbind at 1 2, M_bind at 1 2, print at 1, gets. cbn [emit fs].
  unfold detected in H. rewrite H.
  assert (E : negb (truthy (Some p)) || negb (truthy (Some ty)) = false).
  { destruct p; [done|]. by destruct Hty as [-> | ->]. }
  rewrite E. reflexivity.
Qed.

Lemma reset_history_remove_fails h st c msg :
  fs st !! h = Some c -> faults w (OpRemove h) = Some msg ->
  reset_history w h st
  = ({| fs := fs st; stdout := stdout st;
        calls := calls st ++ [CallRemove h] |},
     inl (OSError (OpRemove h) msg)).
Proof.
  intros E H. unfold reset_history. unfold_r. unfold path_exists.
  rewrite E, H. reflexivity.
Qed.

Lemma reset_history_open_fails h st msg :
  (path_exists (fs st) h = true -> faults w (OpRemove h) = None) ->
  faults w (OpOpenW h) = Some msg ->
  reset_history w h st
  = ({| fs := delete h (fs st); stdout := stdout st;
        calls := calls st
                 ++ (if path_exists (fs st) h then [CallRemove h] else [])
                 ++ [CallOpenW h] |},
     inl (OSError (OpOpenW h) msg)).
Proof.
  intros Hr H. unfold reset_history. unfold_r. unfold path_exists in *.
  destruct (fs st !! h) as [c|] eqn:E; rewrite ?E, ?Hr, H by reflexivity; cbn.
  - rewrite <- ?app_assoc. reflexivity.
  - rewrite delete_id by exact E. rewrite <- ?app_assoc. reflexivity.
Qed.

Lemma reset_history_write_fails h st msg :
  (path_exists (fs st) h = true -> faults w (OpRemove h) = None) ->
  faults w (OpOpenW h) = None -> faults w (OpWrite h) = Some msg ->
  reset_history w h st
  = ({| fs := <[h := []]> (fs st); stdout := stdout st;
        calls := calls st
                 ++ (if path_exists (fs st) h then [CallRemove h] else [])
                 ++ [CallOpenW h; CallWrite h []] |},
     inl (OSError (OpWrite h) msg)).
Proof.
  intros Hr H1 H2. unfold reset_history. unfold_r. unfold path_exists in *.
  destruct (fs st !! h) as [c|] eqn:E; rewrite ?E, ?Hr, H1, H2 by reflexivity;
    cbn; rewrite take_nil.
  - rewrite insert_delete_eq, <- ?app_assoc. reflexivity.
  - rewrite <- ?app_assoc. reflexivity.
Qed.

End MorePhaseFacts.

(** ** What the installer leaves alone *)

(** X1. Whatever the shell, the answer and the failures, a run changes
    no file other than the transcript and the detected configuration
    file, and makes no call on any other file. *)
Theorem other_files_untouched (w : World) (q : list N) :
  q <> history_path w ->
  (forall p ty, detected w p ty -> q <> p) ->
  fs (fst (run w)) !! q = files w !! q
  /\ Forall (fun c => ~ touches q c) (calls (fst (run w))).
Proof.
  intros Hh Hp.
  destruct (get_shell_config_cases w (files w)) as [E|(p & ty & E & _)].
  { rewrite (run_not_detected _ E). split; [reflexivity | constructor]. }
  specialize (Hp p ty E). rewrite (run_detected_any _ _ _ E), bind_unfold.
  set (st0 := {| fs := files w; stdout := _; calls := [] |}).
  destruct (reset_history_frames w (history_path w) st0)
    as (Hfs1 & l1 & Hl1 & Hall1).
  destruct (reset_history w (history_path w) st0) as [st1 [e|[]]].
  - cbn in *. split; [apply Hfs1, Hh|]. rewrite Hl1.
    eapply Forall_impl; [exact Hall1|].
    intros c Hc Hc'. destruct c; simpl in *; congruence.
  - destruct (read_patch_frames w p (Some ty) st1)
      as (Hfs2 & l2 & Hl2 & Hall2).
    cbn in *. split; [rewrite Hfs2, Hfs1 by congruence; reflexivity|].
    rewrite Hl2, Hl1. apply Forall_app. split.
    + eapply Forall_impl; [exact Hall1|].
      intros c Hc Hc'. destruct c; simpl in *; congruence.
    + eapply Forall_impl; [exact Hall2|].
      intros c Hc Hc'. destruct c; simpl in *; congruence.
Qed.

Lemma other_files_untouched_witness :
  fs (fst (run bash_world)) !! lit "/home/u/.bashrc"
  = files bash_world !! lit "/home/u/.bashrc".
Proof.
  destruct (other_files_untouched bash_world (lit "/home/u/.bashrc"))
    as [H _].
  - vm_compute. discriminate.
  - intros p ty Hd. vm_compute in Hd. injection Hd as <- _.
    vm_compute. discriminate.
  - exact H.
Defined.

(** ** Failures outside the [try] blocks *)

(** X2. The reset of the transcript is not guarded.  When it raises, at
    the removal, at the opening or at the write, the exception ends the
    run after the first message; the configuration file is neither read
    nor changed.  The transcript is then as it was (removal failed),
    gone (removed, then not created again) or empty (write failed). *)
Theorem reset_failure_aborts (w : World) (p ty msg : list N) :
  detected w p ty ->
  let h := history_path w in
  let aborted e :=
    snd (run w) = inl e
    /\ stdout (fst (run w)) = [lit "Starting installation..."]
    /\ fs (fst (run w)) !! p = files w !! p
    /\ Forall (touches h) (calls (fst (run w))) in
  (path_exists (files w) h = true -> faults w (OpRemove h) = Some msg ->
   aborted (OSError (OpRemove h) msg)
   /\ fs (fst (run w)) !! h = files w !! h)
  /\ ((path_exists (files w) h = true -> faults w (OpRemove h) = None) ->
      faults w (OpOpenW h) = Some msg ->
      aborted (OSError (OpOpenW h) msg)
      /\ fs (fst (run w)) !! h = None)
  /\ ((path_exists (files w) h = true -> faults w (OpRemove h) = None) ->
      faults w (OpOpenW h) = None -> faults w (OpWrite h) = Some msg ->
      aborted (OSError (OpWrite h) msg)
      /\ fs (fst (run w)) !! h = Some []).
Proof.
  intros Hd h aborted. unfold aborted.
  pose proof (detected_inv _ _ _ Hd) as (_ & _ & Hne).
  rewrite (run_detected_any _ _ _ Hd), bind_unfold.
  fold h. set (st0 := {| fs := files w; stdout := _; calls := [] |}).
  split; [|split].
  - intros He Hr. unfold path_exists in He.
    destruct (files w !! h) as [c|] eqn:E; [|discriminate].
    rewrite (reset_history_remove_fails w h st0 c msg E Hr). cbn.
    repeat (split; [done|]). split; [|exact E]. by repeat constructor.
  - intros Hr Ho. rewrite (reset_history_open_fails w h st0 msg Hr Ho). cbn.
    split; [|apply lookup_delete_eq]. repeat (split; [done|]).
    split; [by rewrite lookup_delete_ne|].
    destruct (path_exists _ _); by repeat constructor.
  - intros Hr Ho Hw.
    rewrite (reset_history_write_fails w h st0 msg Hr Ho Hw). cbn.
    split; [|apply lookup_insert_eq]. repeat (split; [done|]).
    split; [by rewrite lookup_insert_ne|].
    destruct (path_exists _ _); by repeat constructor.
Qed.

Lemma reset_failure_aborts_witness :
  snd (run (faulty_world no_create []))
  = inl (OSError (OpOpenW transcript) (lit "[Errno 13] Permission denied"))
  /\ fs (fst (run (faulty_world no_create []))) !! transcript = None.
Proof.
  destruct (reset_failure_aborts (faulty_world no_create []) zshrc (lit "zsh")
              (lit "[Errno 13] Permission denied")) as (_ & H & _).
  - vm_compute. reflexivity.
  - destruct H as [(H1 & _) H2].
    + reflexivity.
    + vm_compute. reflexivity.
    + split; [exact H1 | exact H2].
Defined.

(** X3. Only a missing configuration file is forgiven when reading.  Any
    other error of the read ends the run with that exception: the
    transcript is already empty, the configuration file is unchanged and
    nothing is printed after the first message. *)
Theorem read_error_propagates (w : World) (p ty msg : list N) :
  detected w p ty -> reset_ok w -> faults w (OpOpenR p) = Some msg ->
  snd (run w) = inl (OSError (OpOpenR p) msg)
  /\ stdout (fst (run w)) = [lit "Starting installation..."]
  /\ fs (fst (run w)) !! p = files w !! p
  /\ fs (fst (run w)) !! history_path w = Some [].
Proof.
  intros Hd Hr Hread. pose proof (detected_inv _ _ _ Hd) as (_ & _ & Hne).
  rewrite (run_detected _ _ _ Hd Hr). unfold mbind, M_bind.
  rewrite (read_config_raises _ _ _ _ Hread). cbn.
  repeat (split; [done|]).
  split; [by rewrite lookup_insert_ne | apply lookup_insert_eq].
Qed.

Lemma read_error_propagates_witness :
  snd (run (faulty_world unreadable (lit "export A=1")))
  = inl (OSError (OpOpenR zshrc) (lit "[Errno 13] Permission denied")).
Proof.
  destruct (read_error_propagates (faulty_world unreadable (lit "export A=1"))
              zshrc (lit "zsh") (lit "[Errno 13] Permission denied"))
    as (H & _).
  - vm_compute. reflexivity.
  - repeat split.
  - vm_compute. reflexivity.
  - exact H.
Defined.

(** X4. A configuration file that does not exist is read as the empty
    text.  This happens for zsh only, since bash is detected through an
    existing file.  With no failure the run then creates [~/.zshrc] with
    two line breaks, the block and a line break, without asking
    anything. *)
Theorem missing_config_created (w : World) (p ty : list N) :
  detected w p ty -> (forall op, faults w op = None) ->
  files w !! p = None ->
  ty = lit "zsh"
  /\ p = OsPath.join (home w) (lit ".zshrc")
  /\ snd (run w) = inr tt
  /\ stdout (fst (run w))
     = [lit "Starting installation..."; success_msg (Some p); restart_msg]
  /\ fs (fst (run w)) !! p
     = Some (nl ++ nl ++ hook_block (base_script ++ zsh_hook) ++ nl).
Proof.
  intros Hd Hf Hnone.
  assert (Hzsh : ty = lit "zsh" /\ p = OsPath.join (home w) (lit ".zshrc")).
  { unfold detected, get_shell_config in Hd.
    destruct (contains (lit "zsh") _); [by injection Hd as <- <-|].
    destruct (contains (lit "bash") _); [|discriminate].
    unfold path_exists in Hd.
    destruct (files w !! OsPath.join (home w) (lit ".bashrc")) eqn:E1.
    { injection Hd as <- <-. congruence. }
    destruct (files w !! OsPath.join (home w) (lit ".bash_profile")) eqn:E2;
      [|discriminate].
    injection Hd as <- <-. congruence. }
  destruct Hzsh as [-> Hp]. split; [reflexivity|]. split; [exact Hp|].
  assert (Hold : old_content w p = [])
    by (unfold old_content, stored_content; by rewrite Hnone).
  rewrite (run_reaches_write w p (lit "zsh") Hd);
    [|repeat split; auto | auto | left; rewrite Hold; reflexivity].
  rewrite write_back_ok by auto. unfold before_write. rewrite Hold. cbn.
  split; [reflexivity|]. split; [reflexivity|].
  rewrite lookup_insert_eq. reflexivity.
Qed.

Lemma missing_config_created_witness :
  stdout (fst (run fresh_world))
  = [lit "Starting installation...";
     success_msg (Some zshrc); restart_msg].
Proof.
  destruct (missing_config_created fresh_world zshrc (lit "zsh"))
    as (_ & _ & _ & H & _).
  - vm_compute. reflexivity.
  - reflexivity.
  - vm_compute. reflexivity.
  - exact H.
Defined.

(** ** The prompt *)

(** X5. At the prompt only the answers y and Y accept.  With the start
    marker in the file and the prompt reached, the run ends with the
    cancellation message exactly when the answer is neither of the two;
    "yes", the empty answer and " y" all cancel. *)
Theorem only_y_accepts (w : World) (p ty content : list N) :
  detected w p ty -> reset_ok w -> faults w (OpOpenR p) = None ->
  files w !! p = Some content ->
  contains start_marker content = true ->
  (accepts w = true <-> stdin w = lit "y" \/ stdin w = lit "Y")
  /\ (cancelled w <-> stdin w <> lit "y" /\ stdin w <> lit "Y").
Proof.
  intros Hd Hr Hread Hfile Hmark.
  assert (Hacc : accepts w = true <-> stdin w = lit "y" \/ stdin w = lit "Y")
    by apply lower_is_y.
  split; [exact Hacc|].
  assert (Hmark' : contains start_marker (universal_newlines content) = true)
    by (rewrite contains_start_universal; exact Hmark).
  unfold cancelled. destruct (accepts w) eqn:Hy.
  - rewrite (run_reaches_write w p ty Hd Hr Hread (or_intror Hy)).
    assert (Hrun : last (stdout (fst (write_back w (Some p) (Some ty)
                     (outside (old_content w p)) (before_write w p))))
                   <> Some (lit "Installation cancelled.")).
    { destruct (faults w (OpOpenW p)) as [m|] eqn:Ho.
      { rewrite (write_back_open_fails _ _ _ _ _ _ Ho). cbn.
        destruct (contains start_marker (old_content w p)); cbn;
          intros [= H]; vm_compute in H; discriminate H. }
      destruct (faults w (OpWrite p)) as [m|] eqn:Hw.
      - rewrite (write_back_write_fails _ _ _ _ _ _ Ho Hw). cbn.
        destruct (contains start_marker (old_content w p)); cbn;
          intros [= H]; vm_compute in H; discriminate H.
      - rewrite (write_back_ok _ _ _ _ _ Ho Hw). cbn.
        destruct (contains start_marker (old_content w p)); cbn;
          intros [= H]; vm_compute in H; discriminate H. }
    split; [intros [_ H]; contradiction|].
    intros [H1 H2]. destruct (proj1 Hacc eq_refl); contradiction.
  - pose proof (detected_inv _ _ _ Hd) as (_ & _ & Hne).
    rewrite (run_detected _ _ _ Hd Hr). unfold mbind, M_bind.
    rewrite (read_config_ok _ _ _ Hread). cbn [after_reset fs].
    rewrite lookup_insert_ne, Hfile by congruence.
    change (default [] (Some content)) with content.
    rewrite (patch_declined _ _ _ _ _ Hmark' Hy). cbn.
    split; [|split; reflexivity].
    intros _. split; intros H; assert (false = true) by (apply Hacc; auto);
      discriminate.
Qed.

Lemma only_y_accepts_witness :
  cancelled (zsh_world (block_of (lit "old")) (lit "yes")).
Proof.
  destruct (only_y_accepts (zsh_world (block_of (lit "old")) (lit "yes"))
              zshrc (lit "zsh") (block_of (lit "old"))) as [_ H].
  - vm_compute. reflexivity.
  - repeat split.
  - reflexivity.
  - reflexivity.
  - vm_compute. reflexivity.
  - apply H. split; vm_compute; discriminate.
Defined.

(** ** The removal *)

(** X6. The substitution of [main] agrees with a search by offsets on
    every text: its result is the text outside the blocks that [parse]
    finds.  These blocks and the text around them make up the input,
    each block is a start marker, a text and the first end marker after
    it, and the result is shorter than the input by the length of the
    blocks. *)
Theorem removal_is_index_scan (s : list N) :
  Re.sub pattern [] s true
  = Some (concat (map fst (fst (parse s))) ++ snd (parse s))
  /\ unparse (fst (parse s)) (snd (parse s)) = s
  /\ Forall delimited (map snd (fst (parse s)))
  /\ length s
     = length (concat (map fst (fst (parse s))) ++ snd (parse s))
       + length (concat (map snd (fst (parse s)))).
Proof.
  split; [apply remove_existing_outside|]. split; [apply parse_unparse|].
  split; [apply parse_delimited|].
  rewrite <- (parse_unparse s) at 1. apply unparse_length.
Qed.

(** X7. The removal changes a text exactly when its first start marker
    is followed by an end marker. *)
Theorem removal_identity_iff (s : list N) :
  remove_existing s = Some s
  <-> find start_marker s = None
      \/ exists i, find start_marker s = Some i
                   /\ find end_marker (drop (i + length start_marker) s) = None.
Proof.
  rewrite <- count_blocks_0, remove_existing_outside.
  unfold count_blocks, outside.
  pose proof (unparse_length (fst (parse s)) (snd (parse s))) as Hlen.
  pose proof (parse_unparse s) as Hu. rewrite Hu in Hlen.
  pose proof (parse_delimited s) as Hd. unfold blocks in Hd.
  destruct (parse s) as [[|[t b] bs] rest]; cbn [fst snd map length] in *.
  - unfold unparse in Hu. cbn in Hu. subst rest. split; reflexivity.
  - split; [|discriminate]. intros [= H].
    apply Forall_cons_1 in Hd as [Hb _]. apply delimited_length in Hb.
    rewrite <- H in Hlen at 1. cbn [concat] in Hlen.
    rewrite (length_app b) in Hlen. lia.
Qed.

(** ** The generated script and the markers *)

(** X8. Neither marker occurs in a script that [get_shell_script]
    returns, so the script between the markers is one delimited block:
    the first end marker after the start marker is the one that [main]
    puts after the script. *)
Theorem script_has_no_marker (ty : option (list N)) (body : list N) :
  get_shell_script ty = Some body ->
  find start_marker body = None
  /\ find end_marker body = None
  /\ delimited (hook_block body).
Proof.
  intros H. destruct (markers_not_in_script _ _ H) as [HS HE].
  split; [exact HS|]. split; [exact HE|].
  pose proof (parse_delimited
                ([] ++ nl ++ nl ++ start_marker ++ nl ++ body ++ nl
                 ++ end_marker ++ nl)) as Hd.
  unfold blocks in Hd. rewrite (parse_appended [] body) in Hd by auto.
  apply Forall_cons_1 in Hd as [Hd _]. exact Hd.
Qed.

Lemma script_has_no_marker_witness :
  find end_marker (base_script ++ bash_hook) = None.
Proof.
  destruct (script_has_no_marker (Some (lit "bash")) (base_script ++ bash_hook))
    as (_ & H & _); [reflexivity | exact H].
Defined.

(** ** Detection and the transcript *)

(** X9. The configuration file that detection returns is one of
    [.zshrc], [.bashrc] and [.bash_profile] in the home directory; it is
    never the empty path and never the transcript, so the reset of the
    transcript cannot delete or empty the configuration file. *)
Theorem config_is_not_transcript (w : World) (f : gmap (list N) (list N))
    (p : list N) (ty : option (list N)) :
  get_shell_config w f = (Some p, ty) ->
  (p = OsPath.join (home w) (lit ".zshrc")
   \/ p = OsPath.join (home w) (lit ".bashrc")
   \/ p = OsPath.join (home w) (lit ".bash_profile"))
  /\ p <> []
  /\ p <> history_path w.
Proof.
  intros H.
  assert (Hp : p = OsPath.join (home w) (lit ".zshrc")
               \/ p = OsPath.join (home w) (lit ".bashrc")
               \/ p = OsPath.join (home w) (lit ".bash_profile")).
  { unfold get_shell_config in H.
    destruct (contains (lit "zsh") _); [injection H as <- _; auto|].
    destruct (contains (lit "bash") _); [|discriminate].
    destruct (path_exists f _); [injection H as <- _; auto|].
    destruct (path_exists f _); [injection H as <- _; auto | discriminate]. }
  split; [exact Hp|].
  assert (Hl : last p = Some 99%N \/ last p = Some 101%N).
  { destruct Hp as [-> | [-> | ->]];
      [left | left | right]; by apply join_last. }
  pose proof (history_path_last w) as Hh.
  split; intros ->; destruct Hl as [Hl|Hl];
    solve [discriminate Hl | congruence].
Qed.

Lemma config_is_not_transcript_witness :
  lit "/home/u/.bash_profile" <> history_path bash_world.
Proof.
  destruct (config_is_not_transcript bash_world (files bash_world)
              (lit "/home/u/.bash_profile") (Some (lit "bash")))
    as (_ & _ & H).
  - vm_compute. reflexivity.
  - exact H.
Defined.

(** ** The new text *)

(** X10. The new text does not depend on the whitespace at the end of
    the old one: blank lines before the block do not pile up. *)
Theorem new_content_ignores_trailing_space
    (content ws : list N) (shell_script : option (list N)) :
  Forall (fun c => isspace c = true) ws ->
  new_content (content ++ ws) shell_script = new_content content shell_script
  /\ new_content (rstrip content) shell_script
     = new_content content shell_script.
Proof.
  intros H. unfold new_content.
  rewrite (rstrip_app_spaces _ _ H), rstrip_idem. split; reflexivity.
Qed.

Lemma new_content_ignores_trailing_space_witness :
  new_content (lit "export A=1" ++ nl ++ lit "  " ++ nl) None
  = new_content (lit "export A=1") None.
Proof.
  destruct (new_content_ignores_trailing_space (lit "export A=1")
              (nl ++ lit "  " ++ nl) None) as [H _].
  - repeat constructor.
  - exact H.
Defined.

(** X11. Reinstalling over a file that an install produced from a text
    without start marker (such a file holds no CR, since an install
    writes what it read) replaces the block by the script of the
    detected shell and keeps the rest; when the script is the same, the
    file is left exactly as it was. *)
Theorem reinstall_replaces_block (w : World) (p ty c body' : list N) :
  detected w p ty -> (forall op, faults w op = None) -> accepts w = true ->
  find start_marker c = None -> find end_marker body' = None ->
  Forall (fun x => x <> 13%N) c -> Forall (fun x => x <> 13%N) body' ->
  files w !! p = Some (rstrip c ++ nl ++ nl ++ hook_block body' ++ nl) ->
  exists body,
    get_shell_script (Some ty) = Some body
    /\ installed w
    /\ fs (fst (run w)) !! p
       = Some (rstrip c ++ nl ++ nl ++ hook_block body ++ nl)
    /\ (body' = body -> fs (fst (run w)) !! p = files w !! p).
Proof.
  intros Hd Hf Hy Hc Hb' Hcr Hcr' Hfile.
  destruct (detected_script _ _ _ Hd) as (body & Hb & _).
  destruct (run_installs w p ty body Hd Hf (or_intror Hy) Hb) as [Hi Hfs].
  assert (Hold : old_content w p
                 = rstrip c ++ nl ++ nl ++ hook_block body' ++ nl).
  { unfold old_content, stored_content. rewrite Hfile.
    change (default [] (Some ?x)) with x. apply universal_newlines_id.
    destruct (rstrip_spec c) as (ws & Hws & _). rewrite Hws in Hcr.
    apply Forall_app in Hcr as [Hcr _]. unfold hook_block.
    repeat (apply Forall_app; split); try assumption; compute_done. }
  assert (Hout : rstrip (outside (old_content w p)) = rstrip c).
  { rewrite Hold. unfold hook_block.
    rewrite <- !app_assoc. unfold outside.
    rewrite (parse_appended (rstrip c) body')
      by (auto using rstrip_find_None).
    cbn [fst snd map concat]. rewrite app_nil_r, <- !app_assoc.
    rewrite rstrip_app_spaces by (repeat constructor). apply rstrip_idem. }
  rewrite Hout in Hfs.
  assert (E : fs (fst (run w)) !! p
              = Some (rstrip c ++ nl ++ nl ++ hook_block body ++ nl)).
  { rewrite Hfs. unfold hook_block. rewrite <- !app_assoc. reflexivity. }
  exists body. split; [exact Hb|]. split; [exact Hi|]. split; [exact E|].
  intros ->. rewrite E, Hfile. reflexivity.
Qed.

Lemma reinstall_replaces_block_witness :
  let w := zsh_world (lit "export A=1" ++ nl ++ nl
                      ++ hook_block (base_script ++ zsh_hook) ++ nl)
             (lit "y") in
  fs (fst (run w)) !! zshrc = files w !! zshrc.
Proof.
  cbv zeta.
  destruct (reinstall_replaces_block
              (zsh_world (lit "export A=1" ++ nl ++ nl
                          ++ hook_block (base_script ++ zsh_hook) ++ nl)
                 (lit "y"))
              zshrc (lit "zsh") (lit "export A=1" ++ nl)
              (base_script ++ zsh_hook)) as (body & Hb & _ & _ & H).
  - vm_compute. reflexivity.
  - reflexivity.
  - vm_compute. reflexivity.
  - vm_compute. reflexivity.
  - vm_compute. reflexivity.
  - compute_done.
  - compute_done.
  - vm_compute. reflexivity.
  - apply H. injection Hb as <-. reflexivity.
Defined.

(** ** The successful run *)

(** X12. A run without failure that is not cancelled prints the first
    message, the prompt when the file held a start marker, and the two
    success messages, the first of which names the configuration file.
    Its file calls are, in this order: the removal of the transcript
    when it existed, its creation and the write of the empty text, the
    read of the configuration file, and one opening and one write of
    the configuration file with the whole new text. *)
Theorem successful_run_trace (w : World) (p ty : list N) :
  detected w p ty -> (forall op, faults w op = None) ->
  contains start_marker (old_content w p) = false \/ accepts w = true ->
  let h := history_path w in
  snd (run w) = inr tt
  /\ stdout (fst (run w))
     = lit "Starting installation..."
       :: (if contains start_marker (old_content w p)
           then [reinstall_prompt] else [])
       ++ [lit "Successfully installed Open Interpreter shell integration to "
           ++ p;
           restart_msg]
  /\ calls (fst (run w))
     = (if path_exists (files w) h then [CallRemove h] else [])
       ++ [CallOpenW h; CallWrite h []; CallOpenR p; CallOpenW p;
           CallWrite p (new_content (outside (old_content w p))
                          (get_shell_script (Some ty)))].
Proof.
  intros Hd Hf Hcase h.
  rewrite (run_reaches_write w p ty Hd) by (repeat split; auto).
  rewrite write_back_ok by auto. cbn.
  split; [reflexivity|]. split; [reflexivity|].
  fold h. destruct (path_exists (files w) h); reflexivity.
Qed.

Lemma successful_run_trace_witness :
  stdout (fst (run (zsh_world two_blocks (lit "Y"))))
  = [lit "Starting installation..."; reinstall_prompt;
     success_msg (Some zshrc); restart_msg].
Proof.
  destruct (successful_run_trace (zsh_world two_blocks (lit "Y")) zshrc
              (lit "zsh")) as (_ & H & _).
  - vm_compute. reflexivity.
  - reflexivity.
  - right. vm_compute. reflexivity.
  - rewrite H. vm_compute. reflexivity.
Defined.

(** ** After the install *)

Lemma contains_app pat a b : contains pat (a ++ pat ++ b) = true.
Proof.
  unfold contains. destruct (find pat (a ++ pat ++ b)) eqn:E; [reflexivity|].
  pose proof (proj1 (find_None_iff _ _) E (length a)) as H.
  rewrite drop_app_length, startswith_app in H. discriminate H.
Qed.

(** X13. Whatever the file held, after a run without failure that is
    not cancelled the configuration file contains both markers and ends
    with the end marker and a line break; the next run will therefore
    find the start marker and ask before it changes the file. *)
Theorem installed_file_has_markers (w : World) (p ty : list N) :
  detected w p ty -> (forall op, faults w op = None) ->
  contains start_marker (old_content w p) = false \/ accepts w = true ->
  exists new,
    fs (fst (run w)) !! p = Some new
    /\ contains start_marker new = true
    /\ contains end_marker new = true
    /\ endswith (end_marker ++ nl) new = true.
Proof.
  intros Hd Hf Hcase.
  destruct (detected_script _ _ _ Hd) as (body & Hb & _).
  destruct (run_installs w p ty body Hd Hf Hcase Hb) as [_ Hfs].
  eexists. split; [exact Hfs|]. split; [|split].
  - rewrite !(app_assoc _ _ (start_marker ++ _)). apply contains_app.
  - rewrite !(app_assoc _ _ (end_marker ++ _)). apply contains_app.
  - unfold endswith.
    rewrite !(app_assoc _ _ (end_marker ++ _)).
    rewrite (rev_app_distr _ (end_marker ++ nl)).
    apply startswith_app.
Qed.

Lemma installed_file_has_markers_witness :
  exists new,
    fs (fst (run (zsh_world spliced (lit "y")))) !! zshrc = Some new
    /\ contains start_marker new = true.
Proof.
  destruct (installed_file_has_markers (zsh_world spliced (lit "y")) zshrc
              (lit "zsh")) as (new & H1 & H2 & _).
  - vm_compute. reflexivity.
  - reflexivity.
  - right. vm_compute. reflexivity.
  - exists new. split; assumption.
Defined.

(** X14. For bash, detection returns a file that exists, so the read of
    [main] never meets a missing file; for zsh the file may be absent. *)
Theorem bash_config_exists (w : World) (f : gmap (list N) (list N))
    (p : list N) :
  get_shell_config w f = (Some p, Some (lit "bash")) ->
  path_exists f p = true
  /\ contains (lit "zsh") (lower (default [] (environ_SHELL w))) = false
  /\ contains (lit "bash") (lower (default [] (environ_SHELL w))) = true.
Proof.
  unfold get_shell_config.
  destruct (contains (lit "zsh") _); [discriminate|].
  destruct (contains (lit "bash") _); [|discriminate].
  destruct (path_exists f (OsPath.join (home w) (lit ".bashrc"))) eqn:E1.
  { intros [= <-]. auto. }
  destruct (path_exists f (OsPath.join (home w) (lit ".bash_profile"))) eqn:E2;
    [|discriminate].
  intros [= <-]. auto.
Qed.

Lemma bash_config_exists_witness :
  path_exists (files bash_world) (lit "/home/u/.bash_profile") = true.
Proof.
  destruct (bash_config_exists bash_world (files bash_world)
              (lit "/home/u/.bash_profile")) as [H _].
  - vm_compute. reflexivity.
  - exact H.
Defined.
